(** * dnscache: the record cache and the request dispatch of the caching
      DNS forwarder

    A shallow embedding of [cache_server.go] (package [main] of
    github.com/ochinchina/dnscache).  Go values are modelled as follows.

    - [uint16] and [uint32] fields are integers of [Z]; the only
      arithmetic done on them, the [int64] product of
      [time.Duration(ttl) * time.Second], has its wrap-around written out.
    - [time.Time] is an instant counted in nanoseconds on an unbounded
      axis, [Time.Add] is addition and [Time.After] the strict order; the
      readings of [time.Now()] are arguments of the functions that take
      them.
    - [*dns.Msg] is a location of a message heap: the cache and the
      handler share message objects, they do not copy them.
    - [map[string]*DNSCacheItem] is a finite map with string keys.
    - a Go function with an [error] result returns a [result]; the
      functions that always return the [nil] error keep their Go tuple.
    - the diagnostics of [zap] and the calls into the DNS library
      (exchange with an upstream, reply to the requester) are events of a
      trace. *)

From Stdlib Require Import ZArith Lia.
From stdpp Require Import base strings pretty list gmap fin_maps.

Local Open Scope Z_scope.
Local Open Scope string_scope.

(** ** DNS messages (github.com/miekg/dns) *)

Definition TypeA : Z := 1.
Definition TypeAAAA : Z := 28.

(** [dns.Question] *)
Record Question := mkQuestion {
  Name : string;
  Qtype : Z;   (* uint16 *)
  Qclass : Z;  (* uint16 *)
}.

(** [dns.RR_Header] with the record data of the resource record. *)
Record RR := mkRR {
  Hdr_Name : string;
  Rrtype : Z;  (* uint16 *)
  Class : Z;   (* uint16 *)
  Ttl : Z;     (* uint32 *)
  Rdata : string;
}.

(** [dns.Msg]: the header fields the program touches and the sections. *)
Record Msg := mkMsg {
  Id : Z;      (* uint16 *)
  Rcode : Z;
  Questions : list Question;
  Answer : list RR;
  Ns : list RR;
  Extra : list RR;
}.

Definition set_Id (id : Z) (m : Msg) : Msg :=
  {| Id := id; Rcode := Rcode m; Questions := Questions m;
     Answer := Answer m; Ns := Ns m; Extra := Extra m |}.

#[global] Instance Question_eq_dec : EqDecision Question.
Proof. solve_decision. Defined.
#[global] Instance RR_eq_dec : EqDecision RR.
Proof. solve_decision. Defined.
#[global] Instance Msg_eq_dec : EqDecision Msg.
Proof. solve_decision. Defined.
#[global] Instance Msg_inhabited : Inhabited Msg :=
  populate (mkMsg 0 0 [] [] [] []).

Definition uint16 (z : Z) : Prop := 0 <= z < 2 ^ 16.
Definition uint32 (z : Z) : Prop := 0 <= z < 2 ^ 32.

(** ** Errors and results *)

Inductive error :=
| ErrNoResponse                          (* "No response for %v" *)
| ErrNoKey                               (* "No key for %v" *)
| ErrUnsupportedProtocol (proto : string) (* "Unsupported protocol %s" *)
| ErrLibrary (msg : string).             (* an error of the DNS library *)

Inductive result (A : Type) :=
| Ok (a : A)
| Err (e : error).
Arguments Ok {A} a.
Arguments Err {A} e.

Definition is_Ok {A} (r : result A) : bool :=
  match r with Ok _ => true | Err _ => false end.

(** ** Time *)

(** A [time.Time] instant and a [time.Duration], both in nanoseconds. *)
Definition Time := Z.
Definition Second : Z := 1000000000.

Definition wrap64 (z : Z) : Z := (z + 2 ^ 63) mod 2 ^ 64 - 2 ^ 63.

(** [time.Duration(ttl) * time.Second], an [int64] product. *)
Definition ttl_duration (ttl : Z) : Z := wrap64 (ttl * Second).

(** ** The record cache *)

Definition loc := positive.

(** [DNSCacheItem] *)
Record DNSCacheItem := mkItem {
  timeOut : Time;
  resp : loc;   (* *dns.Msg *)
}.

#[global] Instance DNSCacheItem_eq_dec : EqDecision DNSCacheItem.
Proof. solve_decision. Defined.

(** The memory the handler works on: the message objects and the map of
    the [DNSCache] of one cache server. *)
Record State := mkState {
  heap : gmap loc Msg;
  cache : gmap string DNSCacheItem;
}.

Definition state_upd_cache (f : gmap string DNSCacheItem -> gmap string DNSCacheItem)
    (σ : State) : State :=
  {| heap := heap σ; cache := f (cache σ) |}.

Definition state_upd_heap (f : gmap loc Msg -> gmap loc Msg) (σ : State) : State :=
  {| heap := f (heap σ); cache := cache σ |}.

(** [NewDNSCache] *)
Definition NewDNSCache : gmap string DNSCacheItem := ∅.

(** ** Events *)

(** [zapcore.Level], the levels the program logs at. *)
Inductive Level := DebugLevel | InfoLevel | ErrorLevel.

(** [dns.Client] and the [DNSServer] that wraps it. *)
Record Client := mkClient { client_Net : string }.
Record DNSServer := mkDNSServer {
  client : Client;
  addr : string;
}.

Inductive Event :=
| EvLog (lvl : Level) (msg : string)          (* zap.L().<lvl>(msg, ...) *)
| EvExchange (i : nat) (s : DNSServer) (req : Msg)
                                              (* s.Exchange(req), i-th upstream *)
| EvWriteMsg (l : loc) (m : Msg).             (* w.WriteMsg(l), [m] on the wire *)

Definition is_write (e : Event) : bool :=
  match e with EvWriteMsg _ _ => true | _ => false end.

Definition is_exchange (e : Event) : bool :=
  match e with EvExchange _ _ _ => true | _ => false end.

(** ** [getKey] *)

(** [fmt.Sprintf("%s-%d", name, qtype)] *)
Definition Sprintf_s_d (name : string) (qtype : Z) : string :=
  name ++ "-" ++ pretty qtype.

Definition getKey (req : Msg) : result string :=
  match Questions req with
  | [question] =>
      if bool_decide (Qtype question = TypeAAAA) || bool_decide (Qtype question = TypeA)
      then Ok (Sprintf_s_d (Name question) (Qtype question))
      else Err ErrNoKey
  | _ => Err ErrNoKey
  end.

(** ** [NewDNSCacheItem], [isTimeout] *)

(** [resp.Answer[0]] is out of range on an empty answer section: the Go
    code panics there, the model returns [None]. *)
Definition NewDNSCacheItem (now : Time) (h : gmap loc Msg) (r : loc) : option DNSCacheItem :=
  match Answer (h !!! r) !! 0%nat with
  | Some rr => Some {| timeOut := now + ttl_duration (Ttl rr); resp := r |}
  | None => None
  end.

(** [time.Now().After(dci.timeOut)] *)
Definition isTimeout (now : Time) (dci : DNSCacheItem) : bool :=
  bool_decide (timeOut dci < now).

(** ** [findResponse] *)

(** [now] is the reading of [time.Now()] in [isTimeout]. *)
Definition findResponse (now : Time) (req : Msg) (σ : State)
    : result loc * State * list Event :=
  match getKey req with
  | Ok key =>
      match cache σ !! key with
      | Some item =>
          if isTimeout now item
          then (Err ErrNoResponse, state_upd_cache (delete key) σ, [])
          else (Ok (resp item), σ, [EvLog DebugLevel "find response from cache"])
      | None => (Err ErrNoResponse, σ, [])
      end
  | Err _ => (Err ErrNoResponse, σ, [])
  end.

(** ** [cacheResponse] *)

(** [now] is the reading of [time.Now()] in [NewDNSCacheItem]. *)
Definition cacheResponse (now : Time) (req : Msg) (r : loc) (σ : State)
    : State * list Event :=
  if bool_decide (0 < length (Answer (heap σ !!! r)))%nat then
    match getKey req with
    | Ok key =>
        match NewDNSCacheItem now (heap σ) r with
        | Some item =>
            (state_upd_cache <[key := item]> σ, [EvLog DebugLevel "cache response"])
        | None => (σ, [EvLog DebugLevel "cache response"])
        end
    | Err _ => (σ, [])
    end
  else (σ, []).

(** ** Address parsing *)

(** [strings.HasPrefix(s, p)] *)
Definition HasPrefix (s p : string) : bool := String.prefix p s.

(** [s[n:]] for [n <= len(s)] *)
Definition slice_from (n : nat) (s : string) : string :=
  String.substring n (String.length s - n) s.

Definition parseListenAddr (listenAddr : string) : string * string * option error :=
  if HasPrefix listenAddr "udp:" then ("udp", slice_from 4 listenAddr, None)
  else if HasPrefix listenAddr "tcp:" then ("tcp", slice_from 4 listenAddr, None)
  else ("udp", listenAddr, None).

Definition parseDNSServerAddr (dnsServerAddr : string) : string * string * option error :=
  parseListenAddr dnsServerAddr.

(** ** Upstream resolvers *)

(** [NewDNSServer]; the second component is what it logs. *)
Definition NewDNSServer (server : string) : result DNSServer * list Event :=
  let '(proto, addr, err) := parseDNSServerAddr server in
  match err with
  | Some e => (Err e, [EvLog ErrorLevel "fail to parse server address"])
  | None => (Ok {| client := {| client_Net := proto |}; addr := addr |}, [])
  end.

(** [CacheServer]; its [cache] field points to the map of the [State]. *)
Record CacheServer := mkCacheServer {
  listenAddrs : list string;
  servers : list DNSServer;
}.

(** The loop of [NewCacheServer]: [dnsServers] is the slice built so far. *)
Fixpoint NewCacheServer_loop (servers : list string) (dnsServers : list DNSServer)
    : list DNSServer :=
  match servers with
  | [] => dnsServers
  | server :: rest =>
      match fst (NewDNSServer server) with
      | Err _ => NewCacheServer_loop rest dnsServers
      | Ok dnsServer => NewCacheServer_loop rest (dnsServers ++ [dnsServer])
      end
  end.

Definition NewCacheServer (listenAddrs : list string) (servers : list string)
    : CacheServer * gmap string DNSCacheItem :=
  ({| listenAddrs := listenAddrs; servers := NewCacheServer_loop servers [] |},
   NewDNSCache).

(** ** The dispatch handler *)

Section Dispatch.

(** The network as one run of the handler sees it: the outcome of
    [client.Exchange(req, addr)] at the [i]-th iteration of the loop over
    the upstreams (the round-trip time, the second result, is dropped by
    the caller). *)
Variable client_Exchange : nat -> Client -> Msg -> string -> result Msg.

(** [DNSServer.Exchange] *)
Definition Exchange (i : nat) (ds : DNSServer) (req : Msg) : result Msg :=
  client_Exchange i (client ds) req (addr ds).

(** A reply of the library is a new message object. *)
Definition alloc (m : Msg) (σ : State) : loc * State :=
  let l := fresh (dom (heap σ)) in (l, state_upd_heap <[l := m]> σ).

(** The loop over [cs.servers] with the failure diagnostic after it;
    [i] counts the iterations done, [now] is the reading of [time.Now()]
    in [cacheResponse]. *)
Fixpoint forward (now : Time) (req : Msg) (i : nat) (servers : list DNSServer)
    (σ : State) : State * list Event :=
  match servers with
  | [] => (σ, [EvLog ErrorLevel "fail to process request"])
  | server :: rest =>
      match Exchange i server req with
      | Ok m =>
          let '(l, σ1) := alloc m σ in
          let '(σ2, ev) := cacheResponse now req l σ1 in
          (σ2, EvExchange i server req :: ev
                 ++ [EvLog InfoLevel "succeed to get response";
                     EvWriteMsg l (heap σ2 !!! l)])
      | Err _ =>
          let '(σ', ev) := forward now req (S i) rest σ in
          (σ', EvExchange i server req :: ev)
      end
  end.

(** [processDNSMsg]: [tFind] and [tStore] are the readings of
    [time.Now()] in [findResponse] and in [cacheResponse]. *)
Definition processDNSMsg (cs : CacheServer) (tFind tStore : Time) (req : Msg)
    (σ : State) : State * list Event :=
  let '(r, σ1, ev1) := findResponse tFind req σ in
  match r with
  | Ok l =>
      let σ2 := state_upd_heap (alter (set_Id (Id req)) l) σ1 in
      (σ2, EvLog DebugLevel "process request" :: ev1
             ++ [EvWriteMsg l (heap σ2 !!! l)])
  | Err _ =>
      let '(σ2, ev2) := forward tStore req 0 (servers cs) σ1 in
      (σ2, EvLog DebugLevel "process request" :: ev1 ++ ev2)
  end.

End Dispatch.

(** ** Starting the listeners *)

(** A handler value [cs.processDNSMsg] is identified by its receiver. *)
Definition HandlerRef := positive.

(** [dns.Server]; [Handler] is [None] for the nil handler. *)
Record dns_Server := mkServer {
  Addr : string;
  Net : string;
  Handler : option HandlerRef;
}.

(** The state of the DNS library in the process: the zones of
    [dns.DefaultServeMux] and the servers that are serving. *)
Record Process := mkProcess {
  DefaultServeMux : gmap string HandlerRef;
  serving : list dns_Server;
}.

(** [dns.HandleFunc(pattern, handler)] registers the handler for the zone
    in [dns.DefaultServeMux]. *)
Definition HandleFunc (pattern : string) (h : HandlerRef) (p : Process) : Process :=
  {| DefaultServeMux := <[pattern := h]> (DefaultServeMux p); serving := serving p |}.

(** What a call of [ListenAndServe] does: it serves, and then does not
    return, or it returns (an error, or nil after a shutdown). *)
Inductive ListenOutcome :=
| Serves
| Returns (err : option error).

(** How a call of [start] ends, by return statement. *)
Inductive StartOutcome :=
| StartParseError (e : error)      (* return err, after parseListenAddr *)
| StartListenError (e : error)     (* return err, after startUDPServer/startTCPServer *)
| StartUnsupported (e : error)     (* return fmt.Errorf("Unsupported protocol %s", proto) *)
| StartNil                         (* return nil *)
| StartServing (srv : dns_Server). (* no return: blocked in ListenAndServe *)

Section Start.

Variable ListenAndServe : dns_Server -> ListenOutcome.

Definition serve (srv : dns_Server) (p : Process) : Process * ListenOutcome :=
  match ListenAndServe srv with
  | Serves => ({| DefaultServeMux := DefaultServeMux p;
                  serving := serving p ++ [srv] |}, Serves)
  | Returns err => (p, Returns err)
  end.

Definition startUDPServer (addr : string) (p : Process)
    : Process * ListenOutcome * list Event :=
  let udpServer := {| Addr := addr; Net := "udp"; Handler := None |} in
  (serve udpServer p, [EvLog InfoLevel "start udp DNS server"]).

Definition startTCPServer (addr : string) (p : Process)
    : Process * ListenOutcome * list Event :=
  let tcpServer := {| Addr := addr; Net := "tcp"; Handler := None |} in
  (serve tcpServer p, [EvLog InfoLevel "start tcp DNS server"]).

(** The loop of [start] over [cs.listenAddrs]; [self] is the receiver. *)
Fixpoint start_loop (self : HandlerRef) (addrs : list string) (p : Process)
    : Process * StartOutcome * list Event :=
  match addrs with
  | [] => (p, StartNil, [])
  | listenAddr :: rest =>
      let '(proto, addr, err) := parseListenAddr listenAddr in
      match err with
      | Some e =>
          (p, StartParseError e, [EvLog ErrorLevel "Fail to parse the listen address"])
      | None =>
          let p1 := HandleFunc "." self p in
          if String.eqb proto "udp" then
            let '(p2, out, ev) := startUDPServer addr p1 in
            match out with
            | Serves => (p2, StartServing {| Addr := addr; Net := "udp"; Handler := None |}, ev)
            | Returns (Some e) => (p2, StartListenError e, ev)
            | Returns None =>
                let '(p3, o, ev') := start_loop self rest p2 in (p3, o, (ev ++ ev')%list)
            end
          else if String.eqb proto "tcp" then
            let '(p2, out, ev) := startTCPServer addr p1 in
            match out with
            | Serves => (p2, StartServing {| Addr := addr; Net := "tcp"; Handler := None |}, ev)
            | Returns (Some e) => (p2, StartListenError e, ev)
            | Returns None =>
                let '(p3, o, ev') := start_loop self rest p2 in (p3, o, (ev ++ ev')%list)
            end
          else
            (p1, StartUnsupported (ErrUnsupportedProtocol proto),
             [EvLog ErrorLevel "Unsupported protocol"])
      end
  end.

Definition start (self : HandlerRef) (cs : CacheServer) (p : Process)
    : Process * StartOutcome * list Event :=
  start_loop self (listenAddrs cs) p.

End Start.

(** ** The earlier revision of [cache_server.go]

    Before the server took a list of listen addresses it kept its upstreams
    as the configured strings, parsed them at every request and logged each
    attempt; [getKey], [findResponse], [cacheResponse] and the parsers are
    the same in both revisions. *)

Module Legacy.

Record CacheServer := mkCacheServer {
  listenAddr : string;
  servers : list string;
}.

Section Dispatch.

Variable client_Exchange : nat -> Client -> Msg -> string -> result Msg.

Fixpoint forward (now : Time) (req : Msg) (i : nat) (servers : list string)
    (σ : State) : State * list Event :=
  match servers with
  | [] => (σ, [EvLog ErrorLevel "fail to process request"])
  | server :: rest =>
      let '(proto, addr, _) := parseDNSServerAddr server in
      let c := {| client_Net := proto |} in
      match client_Exchange i c req addr with
      | Ok m =>
          let '(l, σ1) := alloc m σ in
          let '(σ2, ev) := cacheResponse now req l σ1 in
          (σ2, EvLog InfoLevel "send request to DNS server"
                 :: EvExchange i {| client := c; addr := addr |} req :: ev
                 ++ [EvLog InfoLevel "succeed to get response";
                     EvWriteMsg l (heap σ2 !!! l)])
      | Err _ =>
          let '(σ', ev) := forward now req (S i) rest σ in
          (σ', EvLog InfoLevel "send request to DNS server"
                 :: EvExchange i {| client := c; addr := addr |} req :: ev)
      end
  end.

Definition processDNSMsg (cs : CacheServer) (tFind tStore : Time) (req : Msg)
    (σ : State) : State * list Event :=
  let '(r, σ1, ev1) := findResponse tFind req σ in
  match r with
  | Ok l =>
      let σ2 := state_upd_heap (alter (set_Id (Id req)) l) σ1 in
      (σ2, EvLog DebugLevel "process request" :: ev1
             ++ [EvWriteMsg l (heap σ2 !!! l)])
  | Err _ =>
      let '(σ2, ev2) := forward tStore req 0 (servers cs) σ1 in
      (σ2, EvLog DebugLevel "process request" :: ev1 ++ ev2)
  end.

End Dispatch.

Section Start.

Variable ListenAndServe : dns_Server -> ListenOutcome.

Definition outcome_of (srv : dns_Server) (out : ListenOutcome) : StartOutcome :=
  match out with
  | Serves => StartServing srv
  | Returns (Some e) => StartListenError e
  | Returns None => StartNil
  end.

Definition start (self : HandlerRef) (cs : CacheServer) (p : Process)
    : Process * StartOutcome * list Event :=
  let '(proto, addr, err) := parseListenAddr (listenAddr cs) in
  match err with
  | Some e =>
      (p, StartParseError e, [EvLog ErrorLevel "Fail to parse the listen address"])
  | None =>
      let p1 := HandleFunc "." self p in
      if String.eqb proto "udp" then
        let '(p2, out, ev) := startUDPServer ListenAndServe addr p1 in
        (p2, outcome_of {| Addr := addr; Net := "udp"; Handler := None |} out, ev)
      else if String.eqb proto "tcp" then
        let '(p2, out, ev) := startTCPServer ListenAndServe addr p1 in
        (p2, outcome_of {| Addr := addr; Net := "tcp"; Handler := None |} out, ev)
      else
        (p1, StartUnsupported (ErrUnsupportedProtocol proto),
         [EvLog ErrorLevel "Unsupported protocol"])
  end.

End Start.

End Legacy.

(** ** Auxiliary definitions for the statements *)

(** The upstream that [NewDNSServer] builds for an address string. *)
Definition upstream_of (server : string) : DNSServer :=
  {| client := {| client_Net := fst (fst (parseDNSServerAddr server)) |};
     addr := snd (fst (parseDNSServerAddr server)) |}.

Definition config_error (o : StartOutcome) : bool :=
  match o with
  | StartParseError _ | StartUnsupported _ => true
  | _ => false
  end.

(** The exchanges that a walk over [servers] starting at iteration [i]
    records when it reaches the end of the list. *)
Fixpoint exchanges (i : nat) (servers : list DNSServer) (req : Msg) : list Event :=
  match servers with
  | [] => []
  | u :: rest => EvExchange i u req :: exchanges (S i) rest req
  end.

Definition nil_handler (srv : dns_Server) : Prop := Handler srv = None.

(** The diagnostic that only the earlier revision emits. *)
Definition is_send_log (e : Event) : bool :=
  match e with
  | EvLog InfoLevel msg => String.eqb msg "send request to DNS server"
  | _ => false
  end.

Definition without_send_log (tr : list Event) : list Event :=
  List.filter (fun e => negb (is_send_log e)) tr.

(** A trace with that diagnostic put in front of every exchange. *)
Fixpoint with_send_log (tr : list Event) : list Event :=
  match tr with
  | [] => []
  | EvExchange i s req :: tr' =>
      EvLog InfoLevel "send request to DNS server"
        :: EvExchange i s req :: with_send_log tr'
  | e :: tr' => e :: with_send_log tr'
  end.

(** ** Scenarios *)

Definition query_A : Msg :=
  mkMsg 4660 0 [mkQuestion "example.com." TypeA 1] [] [] [].
Definition query_A_again : Msg :=
  mkMsg 22136 0 [mkQuestion "example.com." TypeA 1] [] [] [].
Definition query_MX : Msg :=
  mkMsg 4661 0 [mkQuestion "example.com." 15 1] [] [] [].
Definition query_two : Msg :=
  mkMsg 4662 0 [mkQuestion "example.com." TypeA 1; mkQuestion "example.org." TypeA 1]
        [] [] [].

Definition reply_60 : Msg :=
  mkMsg 48879 0 [mkQuestion "example.com." TypeA 1]
        [mkRR "example.com." TypeA 1 60 "93.184.216.34"] [] [].

Definition one_reply : State := {| heap := {[ 1%positive := reply_60 ]}; cache := ∅ |}.

Definition item_60 : DNSCacheItem := {| timeOut := 60 * Second; resp := 1%positive |}.

Definition empty_state : State := {| heap := ∅; cache := ∅ |}.

(** The state after the reply of [one_reply] was stored for [query_A] at
    instant 0: one entry, expiring at 60 s. *)
Definition cached_60 : State := fst (cacheResponse 0 query_A 1%positive one_reply).

Definition U1 : DNSServer := upstream_of "udp:10.0.0.1:53".
Definition U2 : DNSServer := upstream_of "tcp:10.0.0.2:53".
Definition U3 : DNSServer := upstream_of "8.8.8.8:53".

Definition three_upstreams : CacheServer :=
  fst (NewCacheServer ["udp:127.0.0.1:53"] ["udp:10.0.0.1:53"; "tcp:10.0.0.2:53"; "8.8.8.8:53"]).

(** The first two exchanges time out, the third is answered. *)
Definition third_answers (i : nat) (c : Client) (req : Msg) (a : string) : result Msg :=
  match i with
  | 2%nat => Ok reply_60
  | _ => Err (ErrLibrary "i/o timeout")
  end.

Definition none_answers (i : nat) (c : Client) (req : Msg) (a : string) : result Msg :=
  Err (ErrLibrary "i/o timeout").

Definition always_serves (srv : dns_Server) : ListenOutcome := Serves.

Definition no_process : Process := {| DefaultServeMux := ∅; serving := [] |}.

Definition instance_one : CacheServer :=
  fst (NewCacheServer ["udp:127.0.0.1:5301"] ["8.8.8.8:53"]).

Definition listener_one : dns_Server :=
  {| Addr := "127.0.0.1:5301"; Net := "udp"; Handler := None |}.

(** ** Program start-up ([main.go])

    [loadConfigFromFile] decodes the YAML file with the library; the model
    starts from its result. *)

(** An element of [DNSCacheConfig.Caches]. *)
Record CacheConfig := mkCacheConfig {
  ListenAddrs : list string;
  DnsServers : list string;
}.

Record DNSCacheConfig := mkDNSCacheConfig {
  Caches : list CacheConfig;
}.

(** How [startDNSCacheServer] ends. *)
Inductive MainOutcome :=
| MainLoadError (e : error)        (* return err, after loadConfigFromFile *)
| MainStart (o : StartOutcome).    (* the loop over the caches *)

Section Main.

Variable ListenAndServe : dns_Server -> ListenOutcome.

(** The loop of [startDNSCacheServer] over [config.Caches]; [next] is the
    address that the next [NewCacheServer] gets.  A [start] that returns
    nil lets the loop go on; an error is returned, and a [start] that
    serves does not return. *)
Fixpoint startDNSCacheServer_loop (next : HandlerRef) (caches : list CacheConfig)
    (p : Process) : Process * StartOutcome * list Event :=
  match caches with
  | [] => (p, StartNil, [])
  | cache :: rest =>
      let cs := fst (NewCacheServer (ListenAddrs cache) (DnsServers cache)) in
      let '(p1, out, ev) := start ListenAndServe next cs p in
      match out with
      | StartNil =>
          let '(p2, o, ev') := startDNSCacheServer_loop (Pos.succ next) rest p1 in
          (p2, o, (ev ++ ev')%list)
      | _ => (p1, out, ev)
      end
  end.

(** [startDNSCacheServer], from the result of [loadConfigFromFile] on. *)
Definition startDNSCacheServer (loaded : result DNSCacheConfig) (p : Process)
    : Process * MainOutcome * list Event :=
  match loaded with
  | Err e =>
      (p, MainLoadError e,
       [EvLog ErrorLevel "Fail to load the configuration from file"])
  | Ok config =>
      let '(p', o, ev) := startDNSCacheServer_loop 1%positive (Caches config) p in
      (p', MainStart o, ev)
  end.

End Main.

(** ** Further definitions for the statements *)

(** Every entry of the map refers to a message that is there and has an
    answer record. *)
Definition cache_wf (σ : State) : Prop :=
  forall k item, cache σ !! k = Some item ->
    exists m, heap σ !! resp item = Some m /\ Answer m <> [].

(** The [dns.Server] that [start] creates for a listen address. *)
Definition listener_of (listenAddr : string) : dns_Server :=
  {| Addr := snd (fst (parseListenAddr listenAddr));
     Net := fst (fst (parseListenAddr listenAddr));
     Handler := None |}.

(** What [start] logs when it creates the server of a listen address. *)
Definition start_log (listenAddr : string) : Event :=
  if String.eqb (fst (fst (parseListenAddr listenAddr))) "udp"
  then EvLog InfoLevel "start udp DNS server"
  else EvLog InfoLevel "start tcp DNS server".

(** ** Further scenarios *)

Definition query_AAAA : Msg :=
  mkMsg 4663 0 [mkQuestion "example.com." TypeAAAA 1] [] [] [].

(** A reply without answer records (a name error). *)
Definition reply_nxdomain : Msg :=
  mkMsg 48880 3 [mkQuestion "example.com." TypeA 1] []
        [mkRR "com." 6 1 900 "a.gtld-servers.net."] [].

Definition reply_300 : Msg :=
  mkMsg 48881 0 [mkQuestion "example.com." TypeA 1]
        [mkRR "example.com." TypeA 1 300 "93.184.216.35"] [] [].

Definition reply_AAAA : Msg :=
  mkMsg 48882 0 [mkQuestion "example.com." TypeAAAA 1]
        [mkRR "example.com." TypeAAAA 1 120 "2606:2800:220:1::1"] [] [].

Definition three_replies : State :=
  {| heap := {[ 1%positive := reply_60; 2%positive := reply_300;
                3%positive := reply_AAAA ]};
     cache := ∅ |}.

Definition first_answers_nxdomain (i : nat) (c : Client) (req : Msg) (a : string)
    : result Msg :=
  Ok reply_nxdomain.

Definition first_answers_300 (i : nat) (c : Client) (req : Msg) (a : string)
    : result Msg :=
  Ok reply_300.

(** The first listener fails to bind; any other serves. *)
Definition first_port_taken (srv : dns_Server) : ListenOutcome :=
  if String.eqb (Addr srv) "127.0.0.1:53"
  then Returns (Some (ErrLibrary "address already in use"))
  else Serves.

(** Every listener returns nil, as after a shutdown. *)
Definition always_returns_nil (srv : dns_Server) : ListenOutcome := Returns None.

(** A configuration with one cache, and the process that the program is
    when it has started it on a library that had registered nothing. *)
Definition one_cache : DNSCacheConfig :=
  {| Caches := [ {| ListenAddrs := ["udp:127.0.0.1:5301"];
                   DnsServers := ["8.8.8.8:53"] |} ] |}.

Definition one_started : Process :=
  fst (fst (startDNSCacheServer always_serves (Ok one_cache) no_process)).

(** [query_A] asked in the CHAOS class. *)
Definition query_A_chaos : Msg :=
  mkMsg 4664 0 [mkQuestion "example.com." TypeA 3] [] [] [].

(** [reply_60] with the identifier of [query_A_again]. *)
Definition reply_60_again : Msg :=
  mkMsg 22136 0 [mkQuestion "example.com." TypeA 1]
        [mkRR "example.com." TypeA 1 60 "93.184.216.34"] [] [].

Definition two_caches : DNSCacheConfig :=
  {| Caches := [ {| ListenAddrs := ["udp:127.0.0.1:5301"; "tcp:127.0.0.1:5301"];
                   DnsServers := ["8.8.8.8:53"] |};
                 {| ListenAddrs := ["udp:127.0.0.1:5302"];
                   DnsServers := ["1.1.1.1:53"] |} ] |}.

(** * Properties *)

(** ** Arithmetic of the expiry instant *)

Lemma wrap64_small (z : Z) : - 2 ^ 63 <= z < 2 ^ 63 -> wrap64 z = z.
Proof.
  intros Hz. unfold wrap64.
  rewrite Z.mod_small by lia. lia.
Qed.

Lemma ttl_duration_uint32 (ttl : Z) : uint32 ttl -> ttl_duration ttl = ttl * Second.
Proof.
  unfold uint32, ttl_duration, Second. intros Httl.
  apply wrap64_small. lia.
Qed.

(** ** Strings *)

Lemma append_cons (c : Ascii.ascii) (p r : string) :
  String c p ++ r = String c (p ++ r).
Proof. reflexivity. Qed.

Lemma append_nil (r : string) : EmptyString ++ r = r.
Proof. reflexivity. Qed.

Lemma substring_all (s : string) : String.substring 0 (String.length s) s = s.
Proof. induction s as [|c s IH]; simpl; [reflexivity | now rewrite IH]. Qed.

Lemma slice_from_app4 (a b c d : Ascii.ascii) (r : string) :
  slice_from 4 (String a (String b (String c (String d r)))) = r.
Proof. unfold slice_from. simpl. rewrite Nat.sub_0_r. apply substring_all. Qed.

Lemma HasPrefix_spec (s p : string) : HasPrefix s p = true <-> exists r, s = p ++ r.
Proof.
  unfold HasPrefix. revert s.
  induction p as [|c p IH]; intros s; simpl.
  - destruct s; split; eauto using append_nil.
  - destruct s as [|c' s]; simpl.
    + split; [discriminate | intros [r Hr]; discriminate].
    + destruct (Ascii.ascii_dec c c') as [->|Hne].
      * rewrite IH. split; intros [r Hr]; exists r; rewrite append_cons in *; congruence.
      * split; [discriminate | intros [r Hr]; rewrite append_cons in Hr; congruence].
Qed.

Lemma HasPrefix_false (s p : string) :
  (forall r, s <> p ++ r) -> HasPrefix s p = false.
Proof.
  intros Hno. destruct (HasPrefix s p) eqn:E; [|reflexivity].
  apply HasPrefix_spec in E as [r Hr]. destruct (Hno r Hr).
Qed.

(** ** Address parsing *)

Example parse_tcp : parseListenAddr "tcp:127.0.0.1:53" = ("tcp", "127.0.0.1:53", None).
Proof. vm_compute. reflexivity. Qed.

Example parse_short : parseListenAddr "udp" = ("udp", "udp", None).
Proof. vm_compute. reflexivity. Qed.

Lemma parseListenAddr_udp (r : string) :
  parseListenAddr ("udp:" ++ r) = ("udp", r, None).
Proof.
  unfold parseListenAddr, HasPrefix. rewrite !append_cons, append_nil.
  simpl. replace (String.prefix EmptyString r) with true by (now destruct r).
  now rewrite slice_from_app4.
Qed.

Lemma parseListenAddr_tcp (r : string) :
  parseListenAddr ("tcp:" ++ r) = ("tcp", r, None).
Proof.
  unfold parseListenAddr, HasPrefix. rewrite !append_cons, append_nil.
  simpl. replace (String.prefix EmptyString r) with true by (now destruct r).
  now rewrite slice_from_app4.
Qed.

Lemma parseListenAddr_other (s : string) :
  (forall r, s <> "udp:" ++ r) -> (forall r, s <> "tcp:" ++ r) ->
  parseListenAddr s = ("udp", s, None).
Proof.
  intros Hu Ht. unfold parseListenAddr.
  now rewrite (HasPrefix_false _ _ Hu), (HasPrefix_false _ _ Ht).
Qed.

Lemma parseListenAddr_cases (s : string) :
  exists proto addr,
    parseListenAddr s = (proto, addr, None) /\ (proto = "udp" \/ proto = "tcp").
Proof.
  unfold parseListenAddr.
  destruct (HasPrefix s "udp:"); [eauto 6|].
  destruct (HasPrefix s "tcp:"); eauto 6.
Qed.

(** C7.  The address rule: a string that starts with "udp:" parses to UDP
    and the string without these four characters, a string that starts with
    "tcp:" to TCP and the string without them, any other string to UDP and
    the string itself; upstream addresses are parsed by the same function
    as listen addresses. *)
Theorem parse_address_rule (s : string) :
  (forall r, s = "udp:" ++ r -> parseListenAddr s = ("udp", r, None)) /\
  (forall r, s = "tcp:" ++ r -> parseListenAddr s = ("tcp", r, None)) /\
  ((forall r, s <> "udp:" ++ r) -> (forall r, s <> "tcp:" ++ r) ->
   parseListenAddr s = ("udp", s, None)) /\
  parseDNSServerAddr s = parseListenAddr s.
Proof.
  repeat split.
  - intros r ->. apply parseListenAddr_udp.
  - intros r ->. apply parseListenAddr_tcp.
  - apply parseListenAddr_other.
Qed.

Lemma parse_address_rule_witness :
  parseListenAddr "udp:8.8.8.8:53" = ("udp", "8.8.8.8:53", None) /\
  parseListenAddr "tcp:8.8.8.8:53" = ("tcp", "8.8.8.8:53", None) /\
  parseListenAddr "8.8.8.8:53" = ("udp", "8.8.8.8:53", None) /\
  parseDNSServerAddr "tcp:8.8.8.8:53" = ("tcp", "8.8.8.8:53", None).
Proof.
  split; [|split; [|split]].
  - apply (proj1 (parse_address_rule "udp:8.8.8.8:53") "8.8.8.8:53"). reflexivity.
  - apply (proj1 (proj2 (parse_address_rule "tcp:8.8.8.8:53")) "8.8.8.8:53"). reflexivity.
  - apply (proj1 (proj2 (proj2 (parse_address_rule "8.8.8.8:53")))); intros r; discriminate.
  - rewrite (proj2 (proj2 (proj2 (parse_address_rule "tcp:8.8.8.8:53")))). reflexivity.
Defined.

(** ** Construction never fails *)

Lemma NewDNSServer_ok (server : string) :
  NewDNSServer server = (Ok (upstream_of server), []).
Proof.
  unfold NewDNSServer, upstream_of, parseDNSServerAddr.
  destruct (parseListenAddr_cases server) as (proto & a & -> & _). reflexivity.
Qed.

Lemma NewCacheServer_loop_all (servers : list string) (acc : list DNSServer) :
  NewCacheServer_loop servers acc = (acc ++ map upstream_of servers)%list.
Proof.
  revert acc. induction servers as [|s rest IH]; intros acc; simpl.
  - now rewrite app_nil_r.
  - rewrite NewDNSServer_ok. simpl. rewrite IH, <- app_assoc. reflexivity.
Qed.

Lemma start_loop_no_config_error (LS : dns_Server -> ListenOutcome)
    (self : HandlerRef) (addrs : list string) (p : Process) :
  config_error (snd (fst (start_loop LS self addrs p))) = false.
Proof.
  revert p. induction addrs as [|a rest IH]; intros p; simpl; [reflexivity|].
  destruct (parseListenAddr_cases a) as (proto & ad & -> & [-> | ->]); simpl.
  - unfold serve. destruct (LS _) as [|[e|]]; simpl; try reflexivity.
    specialize (IH (HandleFunc "." self p)).
    destruct (start_loop LS self rest _) as [[p3 o] ev']. exact IH.
  - unfold serve. destruct (LS _) as [|[e|]]; simpl; try reflexivity.
    specialize (IH (HandleFunc "." self p)).
    destruct (start_loop LS self rest _) as [[p3 o] ev']. exact IH.
Qed.

(** C10.  Address parsing is total and cannot fail: for every string both
    parsers return the nil error with the protocol "udp" or "tcp";
    [NewDNSServer] returns an upstream and no error for every string, so
    [NewCacheServer] keeps one upstream per configured string, in order;
    and no run of [start] ends in its parse-failure or
    unsupported-protocol return. *)
Theorem parsing_is_infallible (s : string) :
  (exists proto a, parseListenAddr s = (proto, a, None) /\ (proto = "udp" \/ proto = "tcp")) /\
  (exists proto a, parseDNSServerAddr s = (proto, a, None) /\ (proto = "udp" \/ proto = "tcp")) /\
  (exists d, NewDNSServer s = (Ok d, [])) /\
  (forall listen upstreams,
     servers (fst (NewCacheServer listen upstreams)) = map upstream_of upstreams /\
     length (servers (fst (NewCacheServer listen upstreams))) = length upstreams) /\
  (forall LS self cs p e,
     snd (fst (start LS self cs p)) <> StartParseError e /\
     snd (fst (start LS self cs p)) <> StartUnsupported e).
Proof.
  split; [apply parseListenAddr_cases|].
  split; [apply parseListenAddr_cases|].
  split; [eexists; apply NewDNSServer_ok|].
  split.
  - intros listen upstreams. simpl. rewrite NewCacheServer_loop_all. simpl.
    split; [reflexivity | apply length_map].
  - intros LS self cs p e. unfold start.
    pose proof (start_loop_no_config_error LS self (listenAddrs cs) p) as H.
    split; intros Heq; rewrite Heq in H; discriminate.
Qed.

(** ** Cache keys *)

Example getKey_A : getKey query_A = Ok "example.com.-1".
Proof. vm_compute. reflexivity. Qed.

Example getKey_AAAA :
  getKey (mkMsg 7 0 [mkQuestion "example.com." TypeAAAA 1] [] [] []) = Ok "example.com.-28".
Proof. vm_compute. reflexivity. Qed.

Example getKey_MX : getKey query_MX = Err ErrNoKey.
Proof. vm_compute. reflexivity. Qed.

Lemma getKey_one (req : Msg) (q : Question) :
  Questions req = [q] -> Qtype q = TypeA \/ Qtype q = TypeAAAA ->
  getKey req = Ok (Sprintf_s_d (Name q) (Qtype q)).
Proof.
  intros Hq Ht. unfold getKey. rewrite Hq.
  destruct Ht as [-> | ->]; reflexivity.
Qed.

Lemma getKey_none (req : Msg) :
  Questions req = [] \/ (1 < length (Questions req))%nat \/
  (exists q, Questions req = [q] /\ Qtype q <> TypeA /\ Qtype q <> TypeAAAA) ->
  getKey req = Err ErrNoKey.
Proof.
  unfold getKey. intros [-> | [Hlen | (q & -> & HA & HAAAA)]].
  - reflexivity.
  - destruct (Questions req) as [|q [|q' qs]]; simpl in Hlen; try lia; reflexivity.
  - rewrite !bool_decide_eq_false_2 by assumption. reflexivity.
Qed.

Lemma findResponse_no_key (now : Time) (req : Msg) (σ : State) (e : error) :
  getKey req = Err e -> findResponse now req σ = (Err ErrNoResponse, σ, []).
Proof. unfold findResponse. now intros ->. Qed.

Lemma cacheResponse_no_key (now : Time) (req : Msg) (r : loc) (σ : State) (e : error) :
  getKey req = Err e -> cacheResponse now req r σ = (σ, []).
Proof. unfold cacheResponse. intros ->. now case_bool_decide. Qed.

(** C2.  A query with exactly one question of type A or AAAA has a key,
    which is computed from the name and the type of the question alone, so
    two such queries with the same name and type have the same key.  A
    query with no question, with more than one question, or with one
    question of another type has no key; a lookup of it finds nothing and
    a store of it changes nothing, whatever the cache holds. *)
Theorem cache_key_derivation (req : Msg) :
  (forall q, Questions req = [q] -> Qtype q = TypeA \/ Qtype q = TypeAAAA ->
     getKey req = Ok (Sprintf_s_d (Name q) (Qtype q)) /\
     forall req' q', Questions req' = [q'] -> Name q' = Name q -> Qtype q' = Qtype q ->
       getKey req' = getKey req) /\
  (Questions req = [] \/ (1 < length (Questions req))%nat \/
   (exists q, Questions req = [q] /\ Qtype q <> TypeA /\ Qtype q <> TypeAAAA) ->
     getKey req = Err ErrNoKey /\
     (forall now σ, findResponse now req σ = (Err ErrNoResponse, σ, [])) /\
     (forall now r σ, cacheResponse now req r σ = (σ, []))).
Proof.
  split.
  - intros q Hq Ht. split; [now apply getKey_one|].
    intros req' q' Hq' Hname Htype.
    rewrite (getKey_one req q Hq Ht).
    rewrite (getKey_one req' q' Hq') by (rewrite Htype; exact Ht).
    now rewrite Hname, Htype.
  - intros Hshape. pose proof (getKey_none req Hshape) as Hk.
    split; [exact Hk|]. split.
    + intros now σ. eapply findResponse_no_key, Hk.
    + intros now r σ. eapply cacheResponse_no_key, Hk.
Qed.

Lemma cache_key_derivation_witness :
  (getKey query_A = Ok (Sprintf_s_d "example.com." TypeA) /\
   getKey query_A_again = getKey query_A) /\
  getKey query_MX = Err ErrNoKey /\
  getKey query_two = Err ErrNoKey.
Proof.
  split; [|split].
  - destruct (proj1 (cache_key_derivation query_A) (mkQuestion "example.com." TypeA 1)
                eq_refl (or_introl eq_refl)) as [Hk Hsame].
    split; [exact Hk|].
    apply (Hsame query_A_again (mkQuestion "example.com." TypeA 1)); reflexivity.
  - apply (proj2 (cache_key_derivation query_MX)).
    right; right. exists (mkQuestion "example.com." 15 1).
    split; [reflexivity | split; discriminate].
  - apply (proj2 (cache_key_derivation query_two)).
    right; left. simpl. lia.
Defined.

(** ** Storing a reply *)

(** Behind the guard of [cacheResponse] the index [Answer[0]] is in range:
    the branch of the model for the panic of [NewDNSCacheItem] is dead. *)
Lemma NewDNSCacheItem_guarded (now : Time) (h : gmap loc Msg) (r : loc) :
  (0 < length (Answer (h !!! r)))%nat -> is_Some (NewDNSCacheItem now h r).
Proof.
  unfold NewDNSCacheItem. destruct (Answer (h !!! r)) as [|rr rest]; simpl.
  - lia.
  - intros _. eauto.
Qed.

Lemma cacheResponse_empty (now : Time) (req : Msg) (r : loc) (σ : State) (m : Msg) :
  heap σ !! r = Some m -> Answer m = [] -> cacheResponse now req r σ = (σ, []).
Proof.
  intros Hr Hans. unfold cacheResponse.
  rewrite (lookup_total_correct _ _ _ Hr), Hans. reflexivity.
Qed.

Lemma cacheResponse_store (now : Time) (req : Msg) (r : loc) (σ : State)
    (m : Msg) (rr : RR) (rest : list RR) (key : string) :
  heap σ !! r = Some m -> Answer m = rr :: rest -> getKey req = Ok key ->
  cacheResponse now req r σ =
    (state_upd_cache <[key := {| timeOut := now + ttl_duration (Ttl rr); resp := r |}]> σ,
     [EvLog DebugLevel "cache response"]).
Proof.
  intros Hr Hans Hkey. unfold cacheResponse, NewDNSCacheItem.
  rewrite (lookup_total_correct _ _ _ Hr), Hans, Hkey. reflexivity.
Qed.

Lemma cacheResponse_heap (now : Time) (req : Msg) (r : loc) (σ : State) :
  heap (fst (cacheResponse now req r σ)) = heap σ.
Proof.
  unfold cacheResponse. case_bool_decide; [|reflexivity].
  destruct (getKey req); [|reflexivity].
  destruct (NewDNSCacheItem _ _ _); reflexivity.
Qed.

(** C5.  A store of a reply without answer records, or for a query
    without a key, leaves the cache map as it is.  Any other store puts at
    the key of the query the entry made of this reply and of the instant of
    the store plus the TTL of the first answer record, in seconds, and
    leaves the entry of every other key as it is.  The messages are not
    touched in either case. *)
Theorem store_frame (now : Time) (req : Msg) (r : loc) (σ : State) (m : Msg) :
  heap σ !! r = Some m ->
  heap (fst (cacheResponse now req r σ)) = heap σ /\
  (Answer m = [] \/ (exists e, getKey req = Err e) ->
     fst (cacheResponse now req r σ) = σ) /\
  (forall rr rest key,
     Answer m = rr :: rest -> uint32 (Ttl rr) -> getKey req = Ok key ->
     let item := {| timeOut := now + Ttl rr * Second; resp := r |} in
     cache (fst (cacheResponse now req r σ)) = <[key := item]> (cache σ) /\
     cache (fst (cacheResponse now req r σ)) !! key = Some item /\
     forall k, k <> key ->
       cache (fst (cacheResponse now req r σ)) !! k = cache σ !! k).
Proof.
  intros Hr. split; [apply cacheResponse_heap|]. split.
  - intros [Hans | [e He]].
    + now rewrite (cacheResponse_empty _ _ _ _ _ Hr Hans).
    + now rewrite (cacheResponse_no_key _ _ _ _ _ He).
  - intros rr rest key Hans Httl Hkey item.
    rewrite (cacheResponse_store _ _ _ _ _ _ _ _ Hr Hans Hkey). simpl.
    rewrite (ttl_duration_uint32 _ Httl). fold item.
    split; [reflexivity|]. split.
    + apply lookup_insert_eq.
    + intros k Hk. now apply lookup_insert_ne.
Qed.

(** C6.  At a fixed instant, a second store of the same query and reply
    leaves the state, and gives the diagnostics, of the first.  When the
    reply has an answer record and the query a key, the map after the two
    stores is the map before them with one entry put under that key: the
    entry that the single store makes, of this reply and the instant plus
    the TTL of the first answer record; the entries of all other keys are
    those from before. *)
Theorem store_idempotent (now : Time) (req : Msg) (r : loc) (σ : State) :
  cacheResponse now req r (fst (cacheResponse now req r σ)) = cacheResponse now req r σ /\
  (forall m rr rest key,
     heap σ !! r = Some m -> Answer m = rr :: rest -> uint32 (Ttl rr) ->
     getKey req = Ok key ->
     let item := {| timeOut := now + Ttl rr * Second; resp := r |} in
     let once := fst (cacheResponse now req r σ) in
     let twice := fst (cacheResponse now req r once) in
     cache once !! key = Some item /\
     cache twice !! key = Some item /\
     cache twice = <[key := item]> (cache σ) /\
     dom (cache twice) = {[ key ]} ∪ dom (cache σ) /\
     forall k, k <> key -> cache twice !! k = cache σ !! k).
Proof.
  assert (Hidem : cacheResponse now req r (fst (cacheResponse now req r σ)) =
                  cacheResponse now req r σ).
  { unfold cacheResponse at 2 3.
    case_bool_decide as Hlen; simpl.
    - destruct (getKey req) as [key|e] eqn:Hkey; simpl.
      + destruct (NewDNSCacheItem now (heap σ) r) as [item|] eqn:Hitem; simpl.
        * unfold cacheResponse. simpl.
          rewrite bool_decide_eq_true_2 by exact Hlen.
          rewrite Hkey, Hitem. unfold state_upd_cache. simpl.
          now rewrite insert_insert_eq.
        * unfold cacheResponse.
          rewrite bool_decide_eq_true_2 by exact Hlen.
          now rewrite Hkey, Hitem.
      + apply (cacheResponse_no_key _ _ _ _ _ Hkey).
    - unfold cacheResponse. now rewrite bool_decide_eq_false_2 by exact Hlen. }
  split; [exact Hidem|].
  intros m rr rest key Hr Hans Httl Hkey item once twice.
  assert (Honce : cache once = <[key := item]> (cache σ)).
  { subst once item. rewrite (cacheResponse_store _ _ _ _ _ _ _ _ Hr Hans Hkey).
    simpl. now rewrite (ttl_duration_uint32 _ Httl). }
  assert (Htwice : cache twice = <[key := item]> (cache σ)).
  { subst twice. fold once in Hidem. now rewrite Hidem. }
  rewrite Htwice, Honce. split; [apply lookup_insert_eq|].
  split; [apply lookup_insert_eq|]. split; [reflexivity|].
  split; [apply dom_insert_L|].
  intros k Hk. now apply lookup_insert_ne.
Qed.

Lemma store_idempotent_witness :
  cache (fst (cacheResponse 0 query_A 1%positive
                (fst (cacheResponse 0 query_A 1%positive one_reply))))
    !! "example.com.-1" = Some item_60 /\
  cache (fst (cacheResponse 0 query_A 1%positive
                (fst (cacheResponse 0 query_A 1%positive one_reply)))) =
    <["example.com.-1" := item_60]> (cache one_reply).
Proof.
  destruct (store_idempotent 0 query_A 1%positive one_reply) as [_ H].
  destruct (H reply_60 (mkRR "example.com." TypeA 1 60 "93.184.216.34") []
              "example.com.-1") as (_ & Htwice & Hmap & _).
  - vm_compute. reflexivity.
  - reflexivity.
  - unfold uint32. simpl. lia.
  - vm_compute. reflexivity.
  - split; [exact Htwice | exact Hmap].
Defined.

(** ** Looking a reply up *)

Lemma findResponse_hit (now : Time) (req : Msg) (σ : State) (key : string)
    (item : DNSCacheItem) :
  getKey req = Ok key -> cache σ !! key = Some item -> now <= timeOut item ->
  findResponse now req σ =
    (Ok (resp item), σ, [EvLog DebugLevel "find response from cache"]).
Proof.
  intros Hkey Hitem Hnow. unfold findResponse, isTimeout.
  rewrite Hkey, Hitem. rewrite bool_decide_eq_false_2 by lia. reflexivity.
Qed.

Lemma findResponse_expired (now : Time) (req : Msg) (σ : State) (key : string)
    (item : DNSCacheItem) :
  getKey req = Ok key -> cache σ !! key = Some item -> timeOut item < now ->
  findResponse now req σ = (Err ErrNoResponse, state_upd_cache (delete key) σ, []).
Proof.
  intros Hkey Hitem Hnow. unfold findResponse, isTimeout.
  rewrite Hkey, Hitem. rewrite bool_decide_eq_true_2 by lia. reflexivity.
Qed.

Lemma findResponse_absent (now : Time) (req : Msg) (σ : State) (key : string) :
  getKey req = Ok key -> cache σ !! key = None ->
  findResponse now req σ = (Err ErrNoResponse, σ, []).
Proof. intros Hkey Hnone. unfold findResponse. now rewrite Hkey, Hnone. Qed.

(** What a lookup that finds nothing leaves behind. *)
Lemma findResponse_miss (now : Time) (req : Msg) (σ σ1 : State) (e : error)
    (ev : list Event) :
  findResponse now req σ = (Err e, σ1, ev) ->
  ev = [] /\ heap σ1 = heap σ /\
  (σ1 = σ \/
   exists key item, getKey req = Ok key /\ cache σ !! key = Some item /\
     timeOut item < now /\ σ1 = state_upd_cache (delete key) σ).
Proof.
  unfold findResponse, isTimeout.
  destruct (getKey req) as [key|e'] eqn:Hkey.
  - destruct (cache σ !! key) as [item|] eqn:Hitem.
    + case_bool_decide as Hlt; intros [= <- <- <-].
      split; [reflexivity|]. split; [reflexivity|]. right. eauto 7.
    + intros [= <- <- <-]. auto.
  - intros [= <- <- <-]. auto.
Qed.

(** C1, as the code has it.  An entry stored at instant [T] from a reply
    whose first answer record has a TTL of [S] seconds expires at [T + S];
    a lookup of the same key at any instant from [T] up to and including
    [T + S] returns the stored reply and keeps the entry, and a lookup at
    any instant after [T + S] finds nothing and removes the entry. *)
Theorem ttl_law (T : Time) (req : Msg) (r : loc) (σ : State) (m : Msg)
    (rr : RR) (rest : list RR) (key : string) :
  heap σ !! r = Some m -> Answer m = rr :: rest -> uint32 (Ttl rr) ->
  getKey req = Ok key ->
  let σ1 := fst (cacheResponse T req r σ) in
  let expiresAt := T + Ttl rr * Second in
  cache σ1 !! key = Some {| timeOut := expiresAt; resp := r |} /\
  (forall t, T <= t <= expiresAt ->
     findResponse t req σ1 =
       (Ok r, σ1, [EvLog DebugLevel "find response from cache"]) /\
     heap σ1 !! r = Some m) /\
  (forall t, expiresAt < t ->
     findResponse t req σ1 =
       (Err ErrNoResponse, state_upd_cache (delete key) σ1, []) /\
     cache (snd (fst (findResponse t req σ1))) !! key = None).
Proof.
  intros Hr Hans Httl Hkey σ1 expiresAt.
  assert (Hitem : cache σ1 !! key = Some {| timeOut := expiresAt; resp := r |}).
  { subst σ1 expiresAt.
    rewrite (cacheResponse_store _ _ _ _ _ _ _ _ Hr Hans Hkey). simpl.
    rewrite (ttl_duration_uint32 _ Httl). apply lookup_insert_eq. }
  split; [exact Hitem|]. split.
  - intros t [_ Ht]. split.
    + apply (findResponse_hit t req σ1 key _ Hkey Hitem). simpl. lia.
    + subst σ1. now rewrite cacheResponse_heap.
  - intros t Ht.
    rewrite (findResponse_expired t req σ1 key _ Hkey Hitem) by (simpl; lia).
    split; [reflexivity|]. simpl. apply lookup_delete_eq.
Qed.

Lemma ttl_law_witness :
  let σ1 := fst (cacheResponse 0 query_A 1%positive one_reply) in
  cache σ1 !! "example.com.-1" = Some item_60 /\
  fst (fst (findResponse (30 * Second) query_A σ1)) = Ok 1%positive /\
  fst (fst (findResponse (61 * Second) query_A σ1)) = Err ErrNoResponse.
Proof.
  pose proof (ttl_law 0 query_A 1%positive one_reply reply_60
                (mkRR "example.com." TypeA 1 60 "93.184.216.34") []
                "example.com.-1") as H.
  cbv zeta in H.
  destruct H as (Hitem & Hin & Hout).
  - vm_compute. reflexivity.
  - reflexivity.
  - unfold uint32. simpl. lia.
  - vm_compute. reflexivity.
  - cbv zeta. split; [exact Hitem|]. split.
    + destruct (Hin (30 * Second)) as [-> _]; [unfold Second; simpl; lia | reflexivity].
    + destruct (Hout (61 * Second)) as [-> _]; [unfold Second; simpl; lia | reflexivity].
Defined.

(** C1 as stated fails at the boundary: the entry stored at instant 0 with
    a TTL of 60 seconds expires at 60 s, and the lookup at exactly 60 s
    still returns the reply and keeps the entry. *)
Lemma ttl_law_boundary_counterexample :
  let σ1 := fst (cacheResponse 0 query_A 1%positive one_reply) in
  let expiresAt := 0 + 60 * Second in
  cache σ1 !! "example.com.-1" = Some {| timeOut := expiresAt; resp := 1%positive |} /\
  findResponse expiresAt query_A σ1 =
    (Ok 1%positive, σ1, [EvLog DebugLevel "find response from cache"]) /\
  ~ (forall t, expiresAt <= t ->
       fst (fst (findResponse t query_A σ1)) = Err ErrNoResponse /\
       cache (snd (fst (findResponse t query_A σ1))) !! "example.com.-1" = None).
Proof.
  cbv zeta. split; [vm_compute; reflexivity|]. split; [vm_compute; reflexivity|].
  intros H. specialize (H (0 + 60 * Second)). destruct H as [H _]; [lia|].
  vm_compute in H. discriminate.
Qed.

Lemma store_frame_witness :
  cache (fst (cacheResponse 0 query_A 1%positive one_reply)) =
    <["example.com.-1" := item_60]> ∅ /\
  fst (cacheResponse 0 query_MX 1%positive one_reply) = one_reply.
Proof.
  destruct (store_frame 0 query_A 1%positive one_reply reply_60) as (_ & _ & Hin);
    [vm_compute; reflexivity|].
  destruct (store_frame 0 query_MX 1%positive one_reply reply_60) as (_ & Hout & _);
    [vm_compute; reflexivity|].
  split.
  - destruct (Hin (mkRR "example.com." TypeA 1 60 "93.184.216.34") [] "example.com.-1")
      as (Hc & _ & _).
    + reflexivity.
    + unfold uint32. simpl. lia.
    + vm_compute. reflexivity.
    + exact Hc.
  - apply Hout. right. exists ErrNoKey. vm_compute. reflexivity.
Defined.

(** ** The dispatch handler *)

Lemma exchanges_no_write (i : nat) (us : list DNSServer) (req : Msg) :
  List.filter is_write (exchanges i us req) = [].
Proof. revert i. induction us as [|u us IH]; intros i; simpl; auto. Qed.

Lemma exchanges_all_exchange (i : nat) (us : list DNSServer) (req : Msg) :
  List.filter is_exchange (exchanges i us req) = exchanges i us req.
Proof. revert i. induction us as [|u us IH]; intros i; simpl; [|rewrite IH]; auto. Qed.

Lemma cacheResponse_events (now : Time) (req : Msg) (r : loc) (σ : State) :
  snd (cacheResponse now req r σ) = [] \/
  snd (cacheResponse now req r σ) = [EvLog DebugLevel "cache response"].
Proof.
  unfold cacheResponse. case_bool_decide; [|auto].
  destruct (getKey req); [|auto].
  destruct (NewDNSCacheItem _ _ _); auto.
Qed.

Section DispatchFacts.

Variable client_Exchange : nat -> Client -> Msg -> string -> result Msg.

Lemma forward_all_fail (now : Time) (req : Msg) (i : nat) (us : list DNSServer)
    (σ : State) :
  (forall j u, us !! j = Some u ->
     exists e, Exchange client_Exchange (i + j) u req = Err e) ->
  forward client_Exchange now req i us σ =
    (σ, (exchanges i us req ++ [EvLog ErrorLevel "fail to process request"])%list).
Proof.
  revert i. induction us as [|u us IH]; intros i Hfail; simpl; [reflexivity|].
  destruct (Hfail 0%nat u eq_refl) as [e He].
  rewrite Nat.add_0_r in He. rewrite He.
  rewrite IH; [reflexivity|].
  intros j v Hv. rewrite Nat.add_succ_l, <- Nat.add_succ_r. now apply (Hfail (S j)).
Qed.

Lemma forward_first_success (now : Time) (req : Msg) (i : nat)
    (pre : list DNSServer) (s : DNSServer) (post : list DNSServer)
    (m : Msg) (σ : State) :
  (forall j u, pre !! j = Some u ->
     exists e, Exchange client_Exchange (i + j) u req = Err e) ->
  Exchange client_Exchange (i + length pre) s req = Ok m ->
  let l := fresh (dom (heap σ)) in
  let stored := cacheResponse now req l (state_upd_heap <[l := m]> σ) in
  forward client_Exchange now req i (pre ++ s :: post) σ =
    (fst stored,
     (exchanges i (pre ++ [s]) req ++ snd stored
        ++ [EvLog InfoLevel "succeed to get response"; EvWriteMsg l m])%list).
Proof.
  intros Hfail Hok l stored. revert i Hfail Hok.
  induction pre as [|u pre IH]; intros i Hfail Hok; simpl in *.
  - rewrite Nat.add_0_r in Hok. rewrite Hok.
    unfold alloc. fold l. fold stored.
    assert (Hm : heap (fst stored) !!! l = m).
    { subst stored. rewrite cacheResponse_heap. simpl. apply lookup_total_insert_eq. }
    destruct stored as [σ2 ev]. simpl in *. now rewrite Hm.
  - destruct (Hfail 0%nat u eq_refl) as [e He].
    rewrite Nat.add_0_r in He. rewrite He.
    rewrite IH; [reflexivity| |].
    + intros j v Hv. rewrite Nat.add_succ_l, <- Nat.add_succ_r. now apply (Hfail (S j)).
    + now rewrite Nat.add_succ_l, <- Nat.add_succ_r.
Qed.

End DispatchFacts.

Section DispatchProperties.

Variable client_Exchange : nat -> Client -> Msg -> string -> result Msg.

(** C3.  Fallback in list order.  When the lookup finds nothing, the
    upstreams before [s] in the list all fail and [s] answers [m], the
    handler contacts the upstreams up to [s] in order and none after it,
    writes the one reply [m], and the cache is what the store of this reply
    makes of the state that the lookup left. *)
Theorem fallback_ordering (cs : CacheServer) (tFind tStore : Time) (req : Msg)
    (σ σ1 : State) (e : error) (ev1 : list Event)
    (pre : list DNSServer) (s : DNSServer) (post : list DNSServer) (m : Msg) :
  findResponse tFind req σ = (Err e, σ1, ev1) ->
  servers cs = (pre ++ s :: post)%list ->
  (forall j u, pre !! j = Some u ->
     exists e', Exchange client_Exchange j u req = Err e') ->
  Exchange client_Exchange (length pre) s req = Ok m ->
  let l := fresh (dom (heap σ1)) in
  let stored := cacheResponse tStore req l (state_upd_heap <[l := m]> σ1) in
  let out := processDNSMsg client_Exchange cs tFind tStore req σ in
  out = (fst stored,
         EvLog DebugLevel "process request"
           :: (exchanges 0 (pre ++ [s]) req ++ snd stored
                 ++ [EvLog InfoLevel "succeed to get response"; EvWriteMsg l m])%list) /\
  heap (fst out) !! l = Some m /\
  List.filter is_write (snd out) = [EvWriteMsg l m] /\
  List.filter is_exchange (snd out) = exchanges 0 (pre ++ [s]) req.
Proof.
  intros Hmiss Hservers Hfail Hok l stored out.
  destruct (findResponse_miss _ _ _ _ _ _ Hmiss) as (-> & _ & _).
  assert (Hout : out = (fst stored,
         EvLog DebugLevel "process request"
           :: (exchanges 0 (pre ++ [s]) req ++ snd stored
                 ++ [EvLog InfoLevel "succeed to get response"; EvWriteMsg l m])%list)).
  { subst out. unfold processDNSMsg. rewrite Hmiss, Hservers.
    rewrite (forward_first_success client_Exchange tStore req 0 pre s post m σ1 Hfail Hok).
    reflexivity. }
  split; [exact Hout|]. rewrite Hout. simpl. split; [|split].
  - subst stored. rewrite cacheResponse_heap. simpl. apply lookup_insert_eq.
  - subst stored. rewrite !List.filter_app, exchanges_no_write.
    destruct (cacheResponse_events tStore req l (state_upd_heap <[l := m]> σ1))
      as [-> | ->]; reflexivity.
  - subst stored. rewrite !List.filter_app, exchanges_all_exchange.
    destruct (cacheResponse_events tStore req l (state_upd_heap <[l := m]> σ1))
      as [-> | ->]; simpl; now rewrite app_nil_r.
Qed.

(** C4, as the code has it.  When the lookup finds nothing and every
    upstream fails (there may be none), the handler contacts every
    upstream in order, writes no reply, stores nothing and ends with the
    failure diagnostic.  The state it leaves is the one the lookup left:
    the messages are untouched, and the map is the map before the request,
    less the entry of the query's key if the lookup found it expired. *)
Theorem total_forwarding_failure (cs : CacheServer) (tFind tStore : Time) (req : Msg)
    (σ σ1 : State) (e : error) (ev1 : list Event) :
  findResponse tFind req σ = (Err e, σ1, ev1) ->
  (forall j u, servers cs !! j = Some u ->
     exists e', Exchange client_Exchange j u req = Err e') ->
  let out := processDNSMsg client_Exchange cs tFind tStore req σ in
  out = (σ1, EvLog DebugLevel "process request"
               :: (exchanges 0 (servers cs) req
                     ++ [EvLog ErrorLevel "fail to process request"])%list) /\
  List.filter is_write (snd out) = [] /\
  heap (fst out) = heap σ /\
  (cache (fst out) = cache σ \/
   exists key item, getKey req = Ok key /\ cache σ !! key = Some item /\
     timeOut item < tFind /\ cache (fst out) = delete key (cache σ)).
Proof.
  intros Hmiss Hfail out.
  destruct (findResponse_miss _ _ _ _ _ _ Hmiss) as (-> & Hheap & Hcache).
  assert (Hout : out = (σ1, EvLog DebugLevel "process request"
               :: (exchanges 0 (servers cs) req
                     ++ [EvLog ErrorLevel "fail to process request"])%list)).
  { subst out. unfold processDNSMsg. rewrite Hmiss.
    rewrite (forward_all_fail client_Exchange tStore req 0 (servers cs) σ1 Hfail).
    reflexivity. }
  split; [exact Hout|]. rewrite Hout. simpl. split; [|split; [exact Hheap|]].
  - now rewrite List.filter_app, exchanges_no_write.
  - destruct Hcache as [-> | (key & item & Hk & Hi & Ht & ->)]; [now left|].
    right. exists key, item. auto.
Qed.

(** C9.  A hit shares the stored message.  When the cache holds a live
    entry for the key of the query, the lookup returns the location that
    the entry holds; the handler overwrites the identifier of the message
    at that location with the identifier of the query and writes it; the
    map is unchanged, so the entry now refers to a message whose
    identifier is that of the query and whose other fields are those of
    the stored reply, and a later lookup of the same key that is still in
    time returns that same location and finds the rewritten message
    there. *)
Theorem hit_rewrites_stored_reply (cs : CacheServer) (tFind tStore : Time) (req : Msg)
    (σ : State) (key : string) (item : DNSCacheItem) (m : Msg) :
  getKey req = Ok key -> cache σ !! key = Some item -> tFind <= timeOut item ->
  heap σ !! resp item = Some m ->
  let out := processDNSMsg client_Exchange cs tFind tStore req σ in
  fst (fst (findResponse tFind req σ)) = Ok (resp item) /\
  snd out = [EvLog DebugLevel "process request";
             EvLog DebugLevel "find response from cache";
             EvWriteMsg (resp item) (set_Id (Id req) m)] /\
  cache (fst out) = cache σ /\
  heap (fst out) = <[resp item := set_Id (Id req) m]> (heap σ) /\
  heap (fst out) !! resp item = Some (set_Id (Id req) m) /\
  (exists m',
     heap (fst out) !! resp item = Some m' /\
     last (snd out) = Some (EvWriteMsg (resp item) m') /\
     Id m' = Id req /\ Rcode m' = Rcode m /\ Questions m' = Questions m /\
     Answer m' = Answer m /\ Ns m' = Ns m /\ Extra m' = Extra m) /\
  (forall t req', getKey req' = Ok key -> t <= timeOut item ->
     fst (fst (findResponse t req' (fst out))) = Ok (resp item) /\
     exists m', heap (fst out) !! resp item = Some m' /\ Id m' = Id req).
Proof.
  intros Hkey Hitem Htime Hm out.
  pose proof (findResponse_hit tFind req σ key item Hkey Hitem Htime) as Hfind.
  assert (Halter : alter (set_Id (Id req)) (resp item) (heap σ) =
                   <[resp item := set_Id (Id req) m]> (heap σ)).
  { apply map_eq. intros l. rewrite lookup_alter, lookup_insert.
    case_decide as Hl; [subst l; now rewrite Hm | reflexivity]. }
  assert (Hout : out = (state_upd_heap <[resp item := set_Id (Id req) m]> σ,
                        [EvLog DebugLevel "process request";
                         EvLog DebugLevel "find response from cache";
                         EvWriteMsg (resp item) (set_Id (Id req) m)])).
  { subst out. unfold processDNSMsg. rewrite Hfind. simpl.
    unfold state_upd_heap. simpl. rewrite Halter.
    now rewrite lookup_total_insert_eq. }
  rewrite Hout. simpl.
  split; [now rewrite Hfind|]. split; [reflexivity|]. split; [reflexivity|].
  split; [reflexivity|]. split; [apply lookup_insert_eq|]. split.
  - exists (set_Id (Id req) m). split; [apply lookup_insert_eq|].
    repeat split; reflexivity.
  - intros t req' Hkey' Ht. split.
    + erewrite findResponse_hit; [reflexivity | exact Hkey' | exact Hitem | exact Ht].
    + exists (set_Id (Id req) m). split; [apply lookup_insert_eq | reflexivity].
Qed.

End DispatchProperties.

Lemma fallback_ordering_witness :
  let out := processDNSMsg third_answers three_upstreams (5 * Second) (6 * Second)
               query_A empty_state in
  List.filter is_write (snd out) = [EvWriteMsg 1%positive reply_60] /\
  List.filter is_exchange (snd out) =
    [EvExchange 0 U1 query_A; EvExchange 1 U2 query_A; EvExchange 2 U3 query_A] /\
  cache (fst out) !! "example.com.-1" =
    Some {| timeOut := 6 * Second + 60 * Second; resp := 1%positive |}.
Proof.
  pose proof (fallback_ordering third_answers three_upstreams (5 * Second) (6 * Second)
                query_A empty_state empty_state ErrNoResponse [] [U1; U2] U3 [] reply_60)
    as H.
  cbv zeta in H. destruct H as (Hout & _ & Hwrite & Hexch).
  - vm_compute. reflexivity.
  - vm_compute. reflexivity.
  - intros j u. destruct j as [|[|j]]; simpl; intros [= <-];
      exists (ErrLibrary "i/o timeout"); reflexivity.
  - reflexivity.
  - cbv zeta. split; [|split].
    + rewrite Hwrite. vm_compute. reflexivity.
    + rewrite Hexch. reflexivity.
    + rewrite Hout. vm_compute. reflexivity.
Defined.

Lemma total_forwarding_failure_witness :
  let out := processDNSMsg none_answers three_upstreams (61 * Second) (62 * Second)
               query_A cached_60 in
  List.filter is_write (snd out) = [] /\
  snd out = [EvLog DebugLevel "process request";
             EvExchange 0 U1 query_A; EvExchange 1 U2 query_A; EvExchange 2 U3 query_A;
             EvLog ErrorLevel "fail to process request"] /\
  heap (fst out) = heap cached_60.
Proof.
  pose proof (total_forwarding_failure none_answers three_upstreams (61 * Second)
                (62 * Second) query_A cached_60
                (state_upd_cache (delete "example.com.-1") cached_60) ErrNoResponse [])
    as H.
  cbv zeta in H. destruct H as (Hout & Hwrite & Hheap & _).
  - vm_compute. reflexivity.
  - intros j u _. exists (ErrLibrary "i/o timeout"). reflexivity.
  - cbv zeta. split; [exact Hwrite|]. split; [|exact Hheap].
    rewrite Hout. reflexivity.
Defined.

(** C4 as stated fails when the miss is an expiry: the entry stored at
    instant 0 with a TTL of 60 s is in the map before the request at 61 s
    and is gone after it, although every upstream failed. *)
Lemma total_failure_changes_cache_counterexample :
  let out := processDNSMsg none_answers three_upstreams (61 * Second) (62 * Second)
               query_A cached_60 in
  fst (fst (findResponse (61 * Second) query_A cached_60)) = Err ErrNoResponse /\
  (forall j u, servers three_upstreams !! j = Some u ->
     Exchange none_answers j u query_A = Err (ErrLibrary "i/o timeout")) /\
  List.filter is_write (snd out) = [] /\
  cache cached_60 !! "example.com.-1" = Some item_60 /\
  cache (fst out) !! "example.com.-1" = None /\
  cache (fst out) <> cache cached_60.
Proof.
  cbv zeta.
  assert (Hbefore : cache cached_60 !! "example.com.-1" = Some item_60)
    by (vm_compute; reflexivity).
  assert (Hafter : cache (fst (processDNSMsg none_answers three_upstreams (61 * Second)
                                 (62 * Second) query_A cached_60))
                     !! "example.com.-1" = None)
    by (vm_compute; reflexivity).
  split; [vm_compute; reflexivity|]. split; [reflexivity|].
  split; [vm_compute; reflexivity|]. split; [exact Hbefore|]. split; [exact Hafter|].
  intros Heq. rewrite Heq, Hbefore in Hafter. discriminate.
Qed.

Lemma hit_rewrites_stored_reply_witness :
  let out := processDNSMsg none_answers three_upstreams (30 * Second) (30 * Second)
               query_A_again cached_60 in
  heap cached_60 !! resp item_60 = Some reply_60 /\
  Id reply_60 = 48879 /\ Id query_A_again = 22136 /\
  cache (fst out) !! "example.com.-1" = Some item_60 /\
  heap (fst out) !! resp item_60 = Some reply_60_again /\
  Id reply_60_again = 22136 /\
  last (snd out) = Some (EvWriteMsg (resp item_60) reply_60_again) /\
  fst (fst (findResponse (45 * Second) query_A (fst out))) = Ok (resp item_60).
Proof.
  pose proof (hit_rewrites_stored_reply none_answers three_upstreams (30 * Second)
                (30 * Second) query_A_again cached_60 "example.com.-1" item_60 reply_60)
    as H.
  cbv zeta in H. destruct H as (_ & _ & Hcache & _ & _ & Hid & Hlater).
  - vm_compute. reflexivity.
  - vm_compute. reflexivity.
  - unfold item_60, Second. simpl. lia.
  - vm_compute. reflexivity.
  - cbv zeta. destruct Hid as (m' & Hheap & Hlast & HId & HRcode & HQ & HA & HNs & HEx).
    assert (Hm' : m' = reply_60_again).
    { destruct m' as [id rc qs an ns ex]. simpl in *. subst. reflexivity. }
    subst m'.
    split; [vm_compute; reflexivity|]. split; [reflexivity|]. split; [reflexivity|].
    split; [rewrite Hcache; vm_compute; reflexivity|].
    split; [exact Hheap|]. split; [reflexivity|]. split; [exact Hlast|].
    apply Hlater; [vm_compute; reflexivity | unfold item_60, Second; simpl; lia].
Defined.

(** ** Handler registration *)

Section StartFacts.

Variable ListenAndServe : dns_Server -> ListenOutcome.

Lemma start_loop_mux (self : HandlerRef) (addrs : list string) (p : Process) :
  DefaultServeMux (fst (fst (start_loop ListenAndServe self addrs p))) =
  match addrs with
  | [] => DefaultServeMux p
  | _ :: _ => <["." := self]> (DefaultServeMux p)
  end.
Proof.
  revert p. induction addrs as [|a rest IH]; intros p; [reflexivity|].
  simpl.
  destruct (parseListenAddr_cases a) as (proto & ad & -> & [-> | ->]); simpl.
  - unfold serve. destruct (ListenAndServe _) as [|[e|]]; simpl; try reflexivity.
    specialize (IH (HandleFunc "." self p)).
    destruct (start_loop ListenAndServe self rest _) as [[p3 o] ev']. simpl in *.
    rewrite IH. destruct rest; [reflexivity | apply insert_insert_eq].
  - unfold serve. destruct (ListenAndServe _) as [|[e|]]; simpl; try reflexivity.
    specialize (IH (HandleFunc "." self p)).
    destruct (start_loop ListenAndServe self rest _) as [[p3 o] ev']. simpl in *.
    rewrite IH. destruct rest; [reflexivity | apply insert_insert_eq].
Qed.

Lemma start_loop_serving (self : HandlerRef) (addrs : list string) (p : Process) :
  exists added,
    serving (fst (fst (start_loop ListenAndServe self addrs p))) =
      (serving p ++ added)%list /\
    Forall nil_handler added.
Proof.
  revert p. induction addrs as [|a rest IH]; intros p.
  - exists []. simpl. now rewrite app_nil_r.
  - simpl.
    destruct (parseListenAddr_cases a) as (proto & ad & -> & [-> | ->]); simpl.
    + unfold serve. destruct (ListenAndServe _) as [|[e|]]; simpl.
      * eexists [_]. split; [reflexivity|]. repeat constructor.
      * exists []. now rewrite app_nil_r.
      * specialize (IH (HandleFunc "." self p)).
        destruct (start_loop ListenAndServe self rest _) as [[p3 o] ev']. exact IH.
    + unfold serve. destruct (ListenAndServe _) as [|[e|]]; simpl.
      * eexists [_]. split; [reflexivity|]. repeat constructor.
      * exists []. now rewrite app_nil_r.
      * specialize (IH (HandleFunc "." self p)).
        destruct (start_loop ListenAndServe self rest _) as [[p3 o] ev']. exact IH.
Qed.

(** C8, as the code has it.  [start] with at least one listen address
    registers the handler of its cache server for the root zone in the
    default multiplexer of the DNS library, which the whole process
    shares, so that the entry of the root zone there is this server's
    handler after the call; and the servers it creates for its listeners
    have no handler of their own. *)
Theorem start_registers_in_shared_mux (self : HandlerRef) (cs : CacheServer) (p : Process) :
  listenAddrs cs <> [] ->
  let p' := fst (fst (start ListenAndServe self cs p)) in
  DefaultServeMux p' = <["." := self]> (DefaultServeMux p) /\
  DefaultServeMux p' !! "." = Some self /\
  exists added,
    serving p' = (serving p ++ added)%list /\ Forall nil_handler added.
Proof.
  intros Hne p'. subst p'. unfold start.
  pose proof (start_loop_mux self (listenAddrs cs) p) as Hmux.
  destruct (start_loop_serving self (listenAddrs cs) p) as (added & Hserv & Hadded).
  destruct (listenAddrs cs) as [|a rest] eqn:Haddrs; [congruence|].
  split; [exact Hmux|]. split; [rewrite Hmux; apply lookup_insert_eq|].
  exists added. auto.
Qed.

End StartFacts.

Lemma start_registers_in_shared_mux_witness :
  DefaultServeMux (fst (fst (start always_serves 1%positive instance_one no_process)))
    !! "." = Some 1%positive /\
  exists added,
    serving (fst (fst (start always_serves 1%positive instance_one no_process))) =
      (serving no_process ++ added)%list /\
    Forall nil_handler added.
Proof.
  pose proof (start_registers_in_shared_mux always_serves 1%positive instance_one
                no_process) as H.
  cbv zeta in H. destruct H as (_ & Hroot & Hadded).
  - discriminate.
  - split; [exact Hroot | exact Hadded].
Defined.

(** C8 as stated fails: when the program has started its one configured
    cache, on a library in which nothing was registered, the handler of
    that cache server is the entry of the root zone in the multiplexer that
    the process shares, and the one listener that is serving has no
    handler of its own. *)
Lemma shared_mux_counterexample :
  snd (fst (startDNSCacheServer always_serves (Ok one_cache) no_process)) =
    MainStart (StartServing listener_one) /\
  serving one_started = [listener_one] /\
  Handler listener_one = None /\
  DefaultServeMux no_process !! "." = None /\
  DefaultServeMux one_started !! "." = Some 1%positive.
Proof. repeat split; vm_compute; reflexivity. Qed.

(** ** The earlier revision *)

Lemma without_send_log_cacheResponse (now : Time) (req : Msg) (r : loc) (σ : State) :
  without_send_log (snd (cacheResponse now req r σ)) = snd (cacheResponse now req r σ).
Proof. destruct (cacheResponse_events now req r σ) as [-> | ->]; reflexivity. Qed.

Lemma with_send_log_store_tail (now : Time) (req : Msg) (r : loc) (σ : State)
    (t : list Event) :
  with_send_log (snd (cacheResponse now req r σ) ++ t) =
  (snd (cacheResponse now req r σ) ++ with_send_log t)%list.
Proof. destruct (cacheResponse_events now req r σ) as [-> | ->]; reflexivity. Qed.

Lemma with_send_log_counts (tr : list Event) :
  length (List.filter is_send_log (with_send_log tr)) =
    (length (List.filter is_exchange tr) + length (List.filter is_send_log tr))%nat /\
  List.filter is_exchange (with_send_log tr) = List.filter is_exchange tr.
Proof.
  induction tr as [|ev tr [IH1 IH2]]; [split; reflexivity|].
  destruct ev as [lvl msg|i s req|l m].
  - change (with_send_log (EvLog lvl msg :: tr)) with (EvLog lvl msg :: with_send_log tr).
    change (List.filter is_exchange (EvLog lvl msg :: with_send_log tr))
      with (List.filter is_exchange (with_send_log tr)).
    change (List.filter is_exchange (EvLog lvl msg :: tr))
      with (List.filter is_exchange tr).
    change (List.filter is_send_log (EvLog lvl msg :: with_send_log tr))
      with (if is_send_log (EvLog lvl msg)
            then EvLog lvl msg :: List.filter is_send_log (with_send_log tr)
            else List.filter is_send_log (with_send_log tr)).
    change (List.filter is_send_log (EvLog lvl msg :: tr))
      with (if is_send_log (EvLog lvl msg)
            then EvLog lvl msg :: List.filter is_send_log tr
            else List.filter is_send_log tr).
    destruct (is_send_log (EvLog lvl msg)); cbn [length];
      rewrite IH1, IH2; split; [lia | reflexivity | lia | reflexivity].
  - change (with_send_log (EvExchange i s req :: tr))
      with (EvLog InfoLevel "send request to DNS server"
              :: EvExchange i s req :: with_send_log tr).
    change (List.filter is_send_log
              (EvLog InfoLevel "send request to DNS server"
                 :: EvExchange i s req :: with_send_log tr))
      with (EvLog InfoLevel "send request to DNS server"
              :: List.filter is_send_log (with_send_log tr)).
    change (List.filter is_exchange
              (EvLog InfoLevel "send request to DNS server"
                 :: EvExchange i s req :: with_send_log tr))
      with (EvExchange i s req :: List.filter is_exchange (with_send_log tr)).
    change (List.filter is_exchange (EvExchange i s req :: tr))
      with (EvExchange i s req :: List.filter is_exchange tr).
    change (List.filter is_send_log (EvExchange i s req :: tr))
      with (List.filter is_send_log tr).
    cbn [length]. rewrite IH1, IH2. split; [lia | reflexivity].
  - change (with_send_log (EvWriteMsg l m :: tr)) with (EvWriteMsg l m :: with_send_log tr).
    change (List.filter is_send_log (EvWriteMsg l m :: with_send_log tr))
      with (List.filter is_send_log (with_send_log tr)).
    change (List.filter is_exchange (EvWriteMsg l m :: with_send_log tr))
      with (List.filter is_exchange (with_send_log tr)).
    change (List.filter is_exchange (EvWriteMsg l m :: tr))
      with (List.filter is_exchange tr).
    change (List.filter is_send_log (EvWriteMsg l m :: tr))
      with (List.filter is_send_log tr).
    rewrite IH1, IH2. split; [lia | reflexivity].
Qed.

Lemma without_send_log_none (tr : list Event) :
  List.filter is_send_log (without_send_log tr) = [].
Proof.
  unfold without_send_log. induction tr as [|ev tr IH]; [reflexivity|].
  simpl. destruct (is_send_log ev) eqn:E; simpl; [exact IH|].
  rewrite E. exact IH.
Qed.

Lemma legacy_forward_refines (cx : nat -> Client -> Msg -> string -> result Msg)
    (now : Time) (req : Msg) (i : nat) (ss : list string) (σ : State) :
  fst (Legacy.forward cx now req i ss σ) =
    fst (forward cx now req i (map upstream_of ss) σ) /\
  without_send_log (snd (Legacy.forward cx now req i ss σ)) =
    snd (forward cx now req i (map upstream_of ss) σ) /\
  snd (Legacy.forward cx now req i ss σ) =
    with_send_log (snd (forward cx now req i (map upstream_of ss) σ)).
Proof.
  revert i. induction ss as [|s rest IH]; intros i; [repeat split; reflexivity|].
  assert (Hup : upstream_of s =
            {| client := {| client_Net := fst (fst (parseListenAddr s)) |};
               addr := snd (fst (parseListenAddr s)) |}) by reflexivity.
  simpl. unfold Exchange. rewrite Hup. unfold parseDNSServerAddr.
  destruct (parseListenAddr s) as [[proto a] err]. simpl.
  destruct (cx i _ req a) as [m|e].
  - unfold alloc.
    pose proof (without_send_log_cacheResponse now req (fresh (dom (heap σ)))
                  (state_upd_heap <[fresh (dom (heap σ)) := m]> σ)) as Hev.
    pose proof (fun t => with_send_log_store_tail now req (fresh (dom (heap σ)))
                  (state_upd_heap <[fresh (dom (heap σ)) := m]> σ) t) as Htail.
    destruct (cacheResponse now req _ _) as [σ2 ev]. simpl in *.
    split; [reflexivity|]. split.
    + unfold without_send_log in *. simpl. rewrite List.filter_app, Hev. reflexivity.
    + rewrite Htail. reflexivity.
  - specialize (IH (S i)).
    destruct (Legacy.forward cx now req (S i) rest σ) as [σ' ev].
    destruct (forward cx now req (S i) (map upstream_of rest) σ) as [σ'' ev'].
    simpl in *. destruct IH as (-> & Htr & Hexact).
    split; [reflexivity|]. split.
    + unfold without_send_log in *. simpl. now rewrite Htr.
    + now rewrite Hexact.
Qed.

(** X20.  The handler of the earlier revision, which parses the upstream
    strings at every request, leaves the state that the current handler
    leaves with the upstreams built from the same strings.  Its trace is
    the trace of the current handler with the diagnostic "send request to
    DNS server" put in front of every exchange, and with nothing else
    added or changed: as many of these diagnostics as exchanges. *)
Lemma legacy_processDNSMsg_refines (cx : nat -> Client -> Msg -> string -> result Msg)
    (listen : string) (listens : list string) (ss : list string)
    (tFind tStore : Time) (req : Msg) (σ : State) :
  fst (Legacy.processDNSMsg cx (Legacy.mkCacheServer listen ss) tFind tStore req σ) =
    fst (processDNSMsg cx (fst (NewCacheServer listens ss)) tFind tStore req σ) /\
  without_send_log
    (snd (Legacy.processDNSMsg cx (Legacy.mkCacheServer listen ss) tFind tStore req σ)) =
    snd (processDNSMsg cx (fst (NewCacheServer listens ss)) tFind tStore req σ) /\
  snd (Legacy.processDNSMsg cx (Legacy.mkCacheServer listen ss) tFind tStore req σ) =
    with_send_log
      (snd (processDNSMsg cx (fst (NewCacheServer listens ss)) tFind tStore req σ)) /\
  length (List.filter is_send_log
            (snd (Legacy.processDNSMsg cx (Legacy.mkCacheServer listen ss)
                    tFind tStore req σ))) =
    length (List.filter is_exchange
              (snd (Legacy.processDNSMsg cx (Legacy.mkCacheServer listen ss)
                      tFind tStore req σ))).
Proof.
  assert (H3 :
    fst (Legacy.processDNSMsg cx (Legacy.mkCacheServer listen ss) tFind tStore req σ) =
      fst (processDNSMsg cx (fst (NewCacheServer listens ss)) tFind tStore req σ) /\
    without_send_log
      (snd (Legacy.processDNSMsg cx (Legacy.mkCacheServer listen ss) tFind tStore req σ)) =
      snd (processDNSMsg cx (fst (NewCacheServer listens ss)) tFind tStore req σ) /\
    snd (Legacy.processDNSMsg cx (Legacy.mkCacheServer listen ss) tFind tStore req σ) =
      with_send_log
        (snd (processDNSMsg cx (fst (NewCacheServer listens ss)) tFind tStore req σ))).
  { unfold Legacy.processDNSMsg, processDNSMsg. simpl.
    rewrite NewCacheServer_loop_all. simpl.
    destruct (findResponse tFind req σ) as [[[l|e] σ1] ev1] eqn:Hfind.
    - unfold findResponse in Hfind.
      destruct (getKey req); [|discriminate].
      destruct (cache σ !! a); [|discriminate].
      destruct (isTimeout tFind d); [discriminate|].
      injection Hfind as <- <- <-. repeat split; reflexivity.
    - destruct (findResponse_miss _ _ _ _ _ _ Hfind) as (-> & _ & _).
      destruct (legacy_forward_refines cx tStore req 0 ss σ1) as (Hst & Htr & Hexact).
      destruct (Legacy.forward cx tStore req 0 ss σ1) as [σ2 ev2].
      destruct (forward cx tStore req 0 (map upstream_of ss) σ1) as [σ2' ev2'].
      simpl in *. subst σ2.
      split; [reflexivity|]. split.
      * unfold without_send_log in *. simpl. now rewrite Htr.
      * now rewrite Hexact. }
  destruct H3 as (Hst & Htr & Hexact).
  split; [exact Hst|]. split; [exact Htr|]. split; [exact Hexact|].
  rewrite Hexact.
  destruct (with_send_log_counts
              (snd (processDNSMsg cx (fst (NewCacheServer listens ss)) tFind tStore req σ)))
    as [Hcount Hexch].
  rewrite Hcount, Hexch, <- Htr, without_send_log_none. simpl. lia.
Qed.

(** X21.  [start] of the earlier revision, with its one listen address,
    does what the current [start] does with that address alone. *)
Lemma legacy_start_one_listener (LS : dns_Server -> ListenOutcome) (self : HandlerRef)
    (listen : string) (ss : list string) (p : Process) :
  Legacy.start LS self (Legacy.mkCacheServer listen ss) p =
  start LS self (fst (NewCacheServer [listen] ss)) p.
Proof.
  unfold Legacy.start, start. simpl.
  destruct (parseListenAddr listen) as [[proto a] [e|]]; [reflexivity|].
  destruct (String.eqb proto "udp").
  - unfold startUDPServer, serve.
    destruct (LS _) as [|[e|]]; simpl; try reflexivity.
  - destruct (String.eqb proto "tcp"); [|reflexivity].
    unfold startTCPServer, serve.
    destruct (LS _) as [|[e|]]; simpl; try reflexivity.
Qed.


(** * Further properties of the record cache *)

(** ** Keys do not collide *)

Lemma list_ascii_of_append (s t : string) :
  Stdlib.Strings.String.list_ascii_of_string (s ++ t) =
  (Stdlib.Strings.String.list_ascii_of_string s ++ Stdlib.Strings.String.list_ascii_of_string t)%list.
Proof.
  induction s as [|c s IH]; [reflexivity|].
  rewrite append_cons. simpl. now rewrite IH.
Qed.

Lemma list_ascii_inj (s t : string) :
  Stdlib.Strings.String.list_ascii_of_string s = Stdlib.Strings.String.list_ascii_of_string t -> s = t.
Proof.
  intros H. rewrite <- (Stdlib.Strings.String.string_of_list_ascii_of_string s),
    <- (Stdlib.Strings.String.string_of_list_ascii_of_string t). now rewrite H.
Qed.

Lemma Sprintf_A (name : string) : Sprintf_s_d name TypeA = name ++ "-1".
Proof. reflexivity. Qed.

Lemma Sprintf_AAAA (name : string) : Sprintf_s_d name TypeAAAA = name ++ "-28".
Proof. reflexivity. Qed.

Lemma getKey_Ok_inv (req : Msg) (key : string) :
  getKey req = Ok key ->
  exists q, Questions req = [q] /\ (Qtype q = TypeA \/ Qtype q = TypeAAAA) /\
    key = Sprintf_s_d (Name q) (Qtype q).
Proof.
  unfold getKey. destruct (Questions req) as [|q [|q' qs]]; try discriminate.
  destruct (bool_decide (Qtype q = TypeAAAA)) eqn:E4.
  - apply bool_decide_eq_true in E4. simpl. intros [= <-]. eauto 6.
  - destruct (bool_decide (Qtype q = TypeA)) eqn:E1; simpl; [|discriminate].
    apply bool_decide_eq_true in E1. intros [= <-]. eauto 6.
Qed.

Lemma key_A_AAAA_differ (n1 n2 : string) : n1 ++ "-1" <> n2 ++ "-28".
Proof.
  intros H. apply (f_equal Stdlib.Strings.String.list_ascii_of_string) in H.
  rewrite !list_ascii_of_append in H. simpl in H.
  change ([Ascii.Ascii true false true true false true false false;
           Ascii.Ascii true false false false true true false false])
    with ([Ascii.Ascii true false true true false true false false]
            ++ [Ascii.Ascii true false false false true true false false])%list in H.
  change ([Ascii.Ascii true false true true false true false false;
           Ascii.Ascii false true false false true true false false;
           Ascii.Ascii false false false true true true false false])
    with ([Ascii.Ascii true false true true false true false false;
           Ascii.Ascii false true false false true true false false]
            ++ [Ascii.Ascii false false false true true true false false])%list in H.
  rewrite !app_assoc in H. apply app_inj_tail in H as [_ H]. discriminate.
Qed.

Lemma key_same_suffix (n1 n2 sfx : string) : n1 ++ sfx = n2 ++ sfx -> n1 = n2.
Proof.
  intros H. apply (f_equal Stdlib.Strings.String.list_ascii_of_string) in H.
  rewrite !list_ascii_of_append in H. apply app_inv_tail in H.
  now apply list_ascii_inj.
Qed.

(** X1.  Of two queries with one question each, the first of which has
    a key, the second has that same key exactly when its question has the
    same name (byte for byte) and the same type.  The class of the
    question and the other fields of the query play no part in the key. *)
Theorem same_key_iff_same_name_and_type (req1 req2 : Msg) (q1 q2 : Question)
    (key : string) :
  Questions req1 = [q1] -> Questions req2 = [q2] ->
  getKey req1 = Ok key ->
  (getKey req2 = Ok key <-> Name q1 = Name q2 /\ Qtype q1 = Qtype q2).
Proof.
  intros Hq1 Hq2 Hk1.
  apply getKey_Ok_inv in Hk1 as (q1' & Hq1' & Ht1 & ->).
  rewrite Hq1 in Hq1'. injection Hq1' as <-.
  split.
  - intros Hk2. apply getKey_Ok_inv in Hk2 as (q2' & Hq2' & Ht2 & Heq).
    rewrite Hq2 in Hq2'. injection Hq2' as <-.
    destruct Ht1 as [T1 | T1], Ht2 as [T2 | T2]; rewrite T1, T2 in *.
    + rewrite !Sprintf_A in Heq. apply key_same_suffix in Heq. auto.
    + rewrite Sprintf_A, Sprintf_AAAA in Heq. destruct (key_A_AAAA_differ _ _ Heq).
    + rewrite Sprintf_A, Sprintf_AAAA in Heq. symmetry in Heq.
      destruct (key_A_AAAA_differ _ _ Heq).
    + rewrite !Sprintf_AAAA in Heq. apply key_same_suffix in Heq. auto.
  - intros [Hname Htype].
    rewrite (getKey_one req2 q2 Hq2) by (rewrite <- Htype; exact Ht1).
    now rewrite Hname, Htype.
Qed.

Lemma same_key_iff_same_name_and_type_witness :
  Qclass (mkQuestion "example.com." TypeA 1) <> Qclass (mkQuestion "example.com." TypeA 3) /\
  getKey query_A = Ok "example.com.-1" /\
  getKey query_A_chaos = Ok "example.com.-1".
Proof.
  assert (Hk : getKey query_A = Ok "example.com.-1") by (vm_compute; reflexivity).
  split; [discriminate|]. split; [exact Hk|].
  apply (same_key_iff_same_name_and_type query_A query_A_chaos
           (mkQuestion "example.com." TypeA 1) (mkQuestion "example.com." TypeA 3)
           "example.com.-1").
  - reflexivity.
  - reflexivity.
  - exact Hk.
  - split; reflexivity.
Defined.

(** ** What a lookup leaves alone *)

(** X2.  A lookup never touches a message and never adds or changes an
    entry: the map after it is a part of the map before it, the entries
    under every key other than the key of the query are as before, and a
    lookup that finds a reply changes nothing at all. *)
Theorem lookup_frame (now : Time) (req : Msg) (σ : State) :
  heap (snd (fst (findResponse now req σ))) = heap σ /\
  cache (snd (fst (findResponse now req σ))) ⊆ cache σ /\
  (forall k, getKey req <> Ok k ->
     cache (snd (fst (findResponse now req σ))) !! k = cache σ !! k) /\
  (forall l, fst (fst (findResponse now req σ)) = Ok l ->
     snd (fst (findResponse now req σ)) = σ).
Proof.
  unfold findResponse.
  destruct (getKey req) as [key|e] eqn:Hkey; [|repeat split; auto; discriminate].
  destruct (cache σ !! key) as [item|] eqn:Hitem; [|repeat split; auto; discriminate].
  destruct (isTimeout now item); simpl.
  - split; [reflexivity|]. split; [apply delete_subseteq|]. split; [|discriminate].
    intros k Hk. apply lookup_delete_ne. congruence.
  - repeat split; auto.
Qed.

(** X3.  A lookup that finds nothing is final: until a store, every
    further lookup of the same query, at whatever instant, finds nothing
    and changes nothing. *)
Theorem lookup_miss_stable (now now' : Time) (req : Msg) (σ σ1 : State)
    (e : error) (ev : list Event) :
  findResponse now req σ = (Err e, σ1, ev) ->
  findResponse now' req σ1 = (Err ErrNoResponse, σ1, []).
Proof.
  unfold findResponse.
  destruct (getKey req) as [key|e'] eqn:Hkey.
  - destruct (cache σ !! key) as [item|] eqn:Hitem.
    + destruct (isTimeout now item); [|discriminate].
      intros [= <- <- <-]. simpl. now rewrite lookup_delete_eq.
    + intros [= <- <- <-]. now rewrite Hitem.
  - intros [= <- <- <-]. reflexivity.
Qed.

Lemma lookup_miss_stable_witness :
  findResponse (10 * Second) query_A
    (state_upd_cache (delete "example.com.-1") cached_60) =
  (Err ErrNoResponse, state_upd_cache (delete "example.com.-1") cached_60, []).
Proof.
  apply (lookup_miss_stable (61 * Second) (10 * Second) query_A cached_60 _
           ErrNoResponse []).
  vm_compute. reflexivity.
Defined.

(** X4.  Expiry is monotone in time: a lookup that finds a reply at some
    instant finds the same reply, with the same effect, at every earlier
    instant; so an entry that a lookup would find expired is expired for
    every later lookup. *)
Theorem lookup_hit_earlier (t t' : Time) (req : Msg) (σ : State) (l : loc) :
  fst (fst (findResponse t req σ)) = Ok l -> t' <= t ->
  findResponse t' req σ = findResponse t req σ.
Proof.
  unfold findResponse, isTimeout.
  destruct (getKey req) as [key|e]; [|reflexivity].
  destruct (cache σ !! key) as [item|]; [|reflexivity].
  case_bool_decide as Ht; [discriminate|].
  intros _ Hle. rewrite bool_decide_eq_false_2 by lia. reflexivity.
Qed.

Lemma lookup_hit_earlier_witness :
  findResponse (10 * Second) query_A cached_60 =
  findResponse (60 * Second) query_A cached_60.
Proof.
  apply (lookup_hit_earlier (60 * Second) (10 * Second) query_A cached_60 1%positive).
  - vm_compute. reflexivity.
  - unfold Second. lia.
Defined.

(** ** How stores compose *)

(** X5.  The last store wins: a store of a reply with an answer record
    leaves the state that it would have left without the store of another
    reply for the same query before it. *)
Theorem store_last_wins (t1 t2 : Time) (req : Msg) (r1 r2 : loc) (σ : State)
    (m2 : Msg) :
  heap σ !! r2 = Some m2 -> Answer m2 <> [] ->
  fst (cacheResponse t2 req r2 (fst (cacheResponse t1 req r1 σ))) =
  fst (cacheResponse t2 req r2 σ).
Proof.
  intros Hr2 Hans.
  destruct (getKey req) as [key|e] eqn:Hkey.
  - destruct (Answer m2) as [|rr rest] eqn:Hm2; [congruence|].
    assert (Hr2' : heap (fst (cacheResponse t1 req r1 σ)) !! r2 = Some m2)
      by now rewrite cacheResponse_heap.
    rewrite (cacheResponse_store t2 req r2 _ m2 rr rest key Hr2' Hm2 Hkey).
    rewrite (cacheResponse_store t2 req r2 σ m2 rr rest key Hr2 Hm2 Hkey).
    unfold cacheResponse. case_bool_decide; [|reflexivity].
    rewrite Hkey. destruct (NewDNSCacheItem t1 (heap σ) r1); [|reflexivity].
    unfold state_upd_cache. simpl. now rewrite insert_insert_eq.
  - now rewrite !(cacheResponse_no_key _ _ _ _ _ Hkey).
Qed.

Lemma store_last_wins_witness :
  fst (cacheResponse (5 * Second) query_A 2%positive
         (fst (cacheResponse 0 query_A 1%positive three_replies))) =
  fst (cacheResponse (5 * Second) query_A 2%positive three_replies).
Proof.
  apply (store_last_wins 0 (5 * Second) query_A 1%positive 2%positive three_replies
           reply_300).
  - vm_compute. reflexivity.
  - discriminate.
Defined.

(** X6.  Stores for queries with different keys, or of which one has no
    key, commute. *)
Theorem store_commute (t1 t2 : Time) (req1 req2 : Msg) (r1 r2 : loc) (σ : State) :
  getKey req1 <> getKey req2 ->
  fst (cacheResponse t1 req1 r1 (fst (cacheResponse t2 req2 r2 σ))) =
  fst (cacheResponse t2 req2 r2 (fst (cacheResponse t1 req1 r1 σ))).
Proof.
  intros Hne. unfold cacheResponse at 2 4.
  destruct (bool_decide (0 < length (Answer (heap σ !!! r1)))%nat) eqn:G1;
  destruct (bool_decide (0 < length (Answer (heap σ !!! r2)))%nat) eqn:G2;
  destruct (getKey req1) as [k1|e1] eqn:K1;
  destruct (getKey req2) as [k2|e2] eqn:K2;
  destruct (NewDNSCacheItem t1 (heap σ) r1) as [i1|] eqn:N1;
  destruct (NewDNSCacheItem t2 (heap σ) r2) as [i2|] eqn:N2;
  simpl; unfold cacheResponse; simpl;
  rewrite ?G1, ?G2, ?K1, ?K2, ?N1, ?N2; simpl; try reflexivity.
  unfold state_upd_cache. simpl. f_equal.
  apply insert_insert_ne. congruence.
Qed.

Lemma store_commute_witness :
  fst (cacheResponse 0 query_A 1%positive
         (fst (cacheResponse (5 * Second) query_AAAA 3%positive three_replies))) =
  fst (cacheResponse (5 * Second) query_AAAA 3%positive
         (fst (cacheResponse 0 query_A 1%positive three_replies))).
Proof.
  apply (store_commute 0 (5 * Second) query_A query_AAAA 1%positive 3%positive
           three_replies).
  vm_compute. discriminate.
Defined.

(** ** The expiry instant *)

(** X7.  For every TTL that fits the [uint32] field the product with
    [time.Second] does not leave [int64]: the item of a reply with an
    answer record refers to that reply and expires at the instant of its
    making plus the TTL in seconds, never before that instant and at most
    4294967295 seconds after it. *)
Theorem NewDNSCacheItem_expiry_bounds (now : Time) (h : gmap loc Msg) (r : loc)
    (m : Msg) (rr : RR) (rest : list RR) :
  h !! r = Some m -> Answer m = rr :: rest -> uint32 (Ttl rr) ->
  exists item,
    NewDNSCacheItem now h r = Some item /\ resp item = r /\
    timeOut item = now + Ttl rr * Second /\
    now <= timeOut item <= now + 4294967295 * Second.
Proof.
  intros Hr Hans Httl. unfold NewDNSCacheItem.
  rewrite (lookup_total_correct _ _ _ Hr), Hans. simpl.
  eexists. split; [reflexivity|]. simpl. split; [reflexivity|].
  rewrite (ttl_duration_uint32 _ Httl). split; [reflexivity|].
  unfold uint32, Second in *. lia.
Qed.

Lemma NewDNSCacheItem_expiry_bounds_witness :
  exists item,
    NewDNSCacheItem (7 * Second) (heap one_reply) 1%positive = Some item /\
    resp item = 1%positive /\
    timeOut item = 7 * Second + 60 * Second /\
    7 * Second <= timeOut item <= 7 * Second + 4294967295 * Second.
Proof.
  apply (NewDNSCacheItem_expiry_bounds (7 * Second) (heap one_reply) 1%positive
           reply_60 (mkRR "example.com." TypeA 1 60 "93.184.216.34") []).
  - vm_compute. reflexivity.
  - reflexivity.
  - unfold uint32. simpl. lia.
Defined.

(** * Further properties of the dispatch handler *)

Lemma guard_allocated (h : gmap loc Msg) (r : loc) :
  (0 < length (Answer (h !!! r)))%nat ->
  exists m, h !! r = Some m /\ Answer m <> [].
Proof.
  rewrite lookup_total_alt. destruct (h !! r) as [m|]; simpl.
  - intros Hlen. exists m. split; [reflexivity|].
    intros Hnil. rewrite Hnil in Hlen. simpl in Hlen. lia.
  - lia.
Qed.

Lemma cacheResponse_cases (now : Time) (req : Msg) (r : loc) (σ : State) :
  fst (cacheResponse now req r σ) = σ \/
  exists key item m,
    getKey req = Ok key /\ heap σ !! r = Some m /\ Answer m <> [] /\
    resp item = r /\
    fst (cacheResponse now req r σ) = state_upd_cache <[key := item]> σ.
Proof.
  unfold cacheResponse. case_bool_decide as Hlen; [|now left].
  destruct (getKey req) as [key|e]; [|now left].
  destruct (guard_allocated _ _ Hlen) as (m & Hm & Hans).
  unfold NewDNSCacheItem.
  destruct (Answer (heap σ !!! r) !! 0%nat) as [rr|]; [|now left].
  right. exists key, {| timeOut := now + ttl_duration (Ttl rr); resp := r |}, m.
  auto.
Qed.

Lemma fresh_unallocated (h : gmap loc Msg) : h !! fresh (dom h) = None.
Proof. apply not_elem_of_dom. apply is_fresh. Qed.

Section HandlerShape.

Variable client_Exchange : nat -> Client -> Msg -> string -> result Msg.

(** The two ways the loop over the upstreams ends. *)
Lemma forward_cases (now : Time) (req : Msg) (i : nat) (us : list DNSServer)
    (σ : State) :
  forward client_Exchange now req i us σ =
    (σ, (exchanges i us req ++ [EvLog ErrorLevel "fail to process request"])%list) \/
  exists n m,
    (n < length us)%nat /\
    forward client_Exchange now req i us σ =
      (fst (cacheResponse now req (fresh (dom (heap σ)))
              (state_upd_heap <[fresh (dom (heap σ)) := m]> σ)),
       (exchanges i (take (S n) us) req
          ++ snd (cacheResponse now req (fresh (dom (heap σ)))
                    (state_upd_heap <[fresh (dom (heap σ)) := m]> σ))
          ++ [EvLog InfoLevel "succeed to get response";
              EvWriteMsg (fresh (dom (heap σ))) m])%list).
Proof.
  revert i. induction us as [|u us IH]; intros i; [now left|].
  simpl. destruct (Exchange client_Exchange i u req) as [m|e].
  - right. exists 0%nat, m. split; [simpl; lia|].
    unfold alloc.
    assert (Hm : heap (fst (cacheResponse now req (fresh (dom (heap σ)))
                   (state_upd_heap <[fresh (dom (heap σ)) := m]> σ)))
                 !!! fresh (dom (heap σ)) = m).
    { rewrite cacheResponse_heap. simpl. apply lookup_total_insert_eq. }
    destruct (cacheResponse now req _ _) as [σ2 ev]. simpl in *.
    rewrite Hm. simpl. rewrite ?take_0. reflexivity.
  - destruct (IH (S i)) as [-> | (n & m & Hn & ->)].
    + now left.
    + right. exists (S n), m. split; [simpl; lia | reflexivity].
Qed.

(** The three ways a request ends: served from the cache, answered by an
    upstream, or dropped. *)
Lemma processDNSMsg_cases (cs : CacheServer) (tFind tStore : Time) (req : Msg)
    (σ : State) :
  (exists key item,
     getKey req = Ok key /\ cache σ !! key = Some item /\ tFind <= timeOut item /\
     processDNSMsg client_Exchange cs tFind tStore req σ =
       (state_upd_heap (alter (set_Id (Id req)) (resp item)) σ,
        [EvLog DebugLevel "process request";
         EvLog DebugLevel "find response from cache";
         EvWriteMsg (resp item)
           (alter (set_Id (Id req)) (resp item) (heap σ) !!! resp item)])) \/
  (exists σ1 e,
     findResponse tFind req σ = (Err e, σ1, []) /\
     (processDNSMsg client_Exchange cs tFind tStore req σ =
        (σ1, EvLog DebugLevel "process request"
               :: (exchanges 0 (servers cs) req
                     ++ [EvLog ErrorLevel "fail to process request"])%list) \/
      exists n m,
        (n < length (servers cs))%nat /\
        processDNSMsg client_Exchange cs tFind tStore req σ =
          (fst (cacheResponse tStore req (fresh (dom (heap σ1)))
                  (state_upd_heap <[fresh (dom (heap σ1)) := m]> σ1)),
           EvLog DebugLevel "process request"
             :: (exchanges 0 (take (S n) (servers cs)) req
                   ++ snd (cacheResponse tStore req (fresh (dom (heap σ1)))
                             (state_upd_heap <[fresh (dom (heap σ1)) := m]> σ1))
                   ++ [EvLog InfoLevel "succeed to get response";
                       EvWriteMsg (fresh (dom (heap σ1))) m])%list))).
Proof.
  unfold processDNSMsg.
  destruct (findResponse tFind req σ) as [[[l|e] σ1] ev1] eqn:Hfind.
  - left. unfold findResponse, isTimeout in Hfind.
    destruct (getKey req) as [key|e]; [|discriminate].
    destruct (cache σ !! key) as [item|] eqn:Hitem; [|discriminate].
    case_bool_decide as Ht; [discriminate|].
    injection Hfind as <- <- <-. exists key, item.
    split; [reflexivity|]. split; [exact Hitem|]. split; [lia | reflexivity].
  - right. destruct (findResponse_miss _ _ _ _ _ _ Hfind) as (-> & _ & _).
    exists σ1, e. split; [reflexivity|].
    destruct (forward_cases tStore req 0 (servers cs) σ1) as [-> | (n & m & Hn & ->)].
    + now left.
    + right. exists n, m. auto.
Qed.

End HandlerShape.

Lemma filter_write_log_cons (lvl : Level) (msg : string) (tr : list Event) :
  List.filter is_write (EvLog lvl msg :: tr) = List.filter is_write tr.
Proof. reflexivity. Qed.

Lemma filter_exchange_log_cons (lvl : Level) (msg : string) (tr : list Event) :
  List.filter is_exchange (EvLog lvl msg :: tr) = List.filter is_exchange tr.
Proof. reflexivity. Qed.

Section HandlerProperties.

Variable client_Exchange : nat -> Client -> Msg -> string -> result Msg.

(** X8.  Whatever the cache holds and whatever the upstreams do, the
    handler ends a request in one of two ways: its last action is the one
    reply it writes, or its last action is the failure diagnostic and it
    has written nothing.  It never writes two replies. *)
Theorem request_ends_once (cs : CacheServer) (tFind tStore : Time) (req : Msg)
    (σ : State) :
  exists tr final,
    snd (processDNSMsg client_Exchange cs tFind tStore req σ) = (tr ++ [final])%list /\
    List.filter is_write tr = [] /\
    (final = EvLog ErrorLevel "fail to process request" \/
     exists l m, final = EvWriteMsg l m).
Proof.
  destruct (processDNSMsg_cases client_Exchange cs tFind tStore req σ)
    as [(key & item & Hk & Hi & Ht & ->) | (σ1 & e & Hfind & [-> | (n & m & Hn & ->)])];
    cbn [fst snd].
  - eexists [_; _], _. split; [reflexivity|]. split; [reflexivity|]. eauto.
  - eexists (_ :: _), _. split; [reflexivity|]. split; [|now left].
    simpl. apply exchanges_no_write.
  - exists (EvLog DebugLevel "process request"
              :: exchanges 0 (take (S n) (servers cs)) req
              ++ snd (cacheResponse tStore req (fresh (dom (heap σ1)))
                        (state_upd_heap <[fresh (dom (heap σ1)) := m]> σ1))
              ++ [EvLog InfoLevel "succeed to get response"])%list,
           (EvWriteMsg (fresh (dom (heap σ1))) m).
    split.
    + rewrite <- app_comm_cons, <- !app_assoc. reflexivity.
    + split; [|eauto]. rewrite filter_write_log_cons.
      rewrite !List.filter_app, exchanges_no_write.
      destruct (cacheResponse_events tStore req (fresh (dom (heap σ1)))
                  (state_upd_heap <[fresh (dom (heap σ1)) := m]> σ1)) as [-> | ->];
        reflexivity.
Qed.

(** X9.  The upstreams that a request contacts are an initial part of the
    configured list, each once and in the configured order: the handler
    skips none, repeats none and goes back to none. *)
Theorem upstreams_contacted_in_order (cs : CacheServer) (tFind tStore : Time)
    (req : Msg) (σ : State) :
  exists n,
    (n <= length (servers cs))%nat /\
    List.filter is_exchange (snd (processDNSMsg client_Exchange cs tFind tStore req σ)) =
      exchanges 0 (take n (servers cs)) req.
Proof.
  destruct (processDNSMsg_cases client_Exchange cs tFind tStore req σ)
    as [(key & item & Hk & Hi & Ht & ->) | (σ1 & e & Hfind & [-> | (n & m & Hn & ->)])];
    cbn [fst snd].
  - exists 0%nat. split; [lia|]. now rewrite take_0.
  - exists (length (servers cs)). split; [lia|].
    rewrite filter_exchange_log_cons.
    rewrite List.filter_app, exchanges_all_exchange, firstn_all. simpl.
    now rewrite app_nil_r.
  - exists (S n). split; [lia|]. rewrite filter_exchange_log_cons.
    rewrite !List.filter_app, exchanges_all_exchange.
    destruct (cacheResponse_events tStore req (fresh (dom (heap σ1)))
                (state_upd_heap <[fresh (dom (heap σ1)) := m]> σ1)) as [-> | ->];
      simpl; now rewrite app_nil_r.
Qed.

(** X10.  A request touches no entry but the one of its own key: under
    every other key, and under every key when the query has none, the map
    holds after the request what it held before. *)
Theorem request_cache_frame (cs : CacheServer) (tFind tStore : Time) (req : Msg)
    (σ : State) (k : string) :
  getKey req <> Ok k ->
  cache (fst (processDNSMsg client_Exchange cs tFind tStore req σ)) !! k = cache σ !! k.
Proof.
  intros Hk.
  assert (Hfind : forall σ1 e, findResponse tFind req σ = (Err e, σ1, []) ->
            cache σ1 !! k = cache σ !! k).
  { intros σ1 e Hf.
    destruct (findResponse_miss _ _ _ _ _ _ Hf)
      as (_ & _ & [-> | (key & item & Hkey & _ & _ & ->)]); [reflexivity|].
    simpl. apply lookup_delete_ne. congruence. }
  destruct (processDNSMsg_cases client_Exchange cs tFind tStore req σ)
    as [(key & item & Hkey & Hi & Ht & ->) | (σ1 & e & Hf & [-> | (n & m & Hn & ->)])];
    cbn [fst snd].
  - reflexivity.
  - eauto.
  - destruct (cacheResponse_cases tStore req (fresh (dom (heap σ1)))
                (state_upd_heap <[fresh (dom (heap σ1)) := m]> σ1))
      as [-> | (key & item & m' & Hkey & _ & _ & _ & ->)]; simpl.
    + eauto.
    + rewrite lookup_insert_ne by congruence. eauto.
Qed.

(** X11.  A request changes no message that exists, but for one thing: on
    a hit the message of the entry of its key gets the identifier of the
    query.  Every other field of every message, the answer records and
    their TTLs included, stays as the upstream sent it. *)
Theorem request_heap_frame (cs : CacheServer) (tFind tStore : Time) (req : Msg)
    (σ : State) (l : loc) (m : Msg) :
  heap σ !! l = Some m ->
  heap (fst (processDNSMsg client_Exchange cs tFind tStore req σ)) !! l = Some m \/
  (heap (fst (processDNSMsg client_Exchange cs tFind tStore req σ)) !! l =
     Some (set_Id (Id req) m) /\
   exists key item, getKey req = Ok key /\ cache σ !! key = Some item /\
     tFind <= timeOut item /\ resp item = l).
Proof.
  intros Hl.
  destruct (processDNSMsg_cases client_Exchange cs tFind tStore req σ)
    as [(key & item & Hkey & Hi & Ht & ->) | (σ1 & e & Hf & [-> | (n & m' & Hn & ->)])];
    cbn [fst snd].
  - unfold state_upd_heap. cbn [heap]. rewrite lookup_alter. case_decide as Heq.
    + right. subst l. rewrite Hl. simpl. split; [reflexivity|]. eauto 7.
    + now left.
  - left. destruct (findResponse_miss _ _ _ _ _ _ Hf) as (_ & -> & _). exact Hl.
  - left. rewrite cacheResponse_heap. simpl.
    destruct (findResponse_miss _ _ _ _ _ _ Hf) as (_ & Hheap & _).
    rewrite lookup_insert_ne; [now rewrite Hheap|].
    intros Heq. pose proof (fresh_unallocated (heap σ1)) as Hfresh.
    rewrite Heq, Hheap, Hl in Hfresh. discriminate.
Qed.

End HandlerProperties.

Lemma request_cache_frame_witness :
  cache (fst (processDNSMsg third_answers three_upstreams (5 * Second) (6 * Second)
                query_AAAA cached_60)) !! "example.com.-1" =
  cache cached_60 !! "example.com.-1".
Proof.
  apply (request_cache_frame third_answers three_upstreams (5 * Second) (6 * Second)
           query_AAAA cached_60 "example.com.-1").
  vm_compute. discriminate.
Defined.

Lemma request_heap_frame_witness :
  heap (fst (processDNSMsg none_answers three_upstreams (30 * Second) (30 * Second)
               query_A_again cached_60)) !! 1%positive = Some reply_60 \/
  (heap (fst (processDNSMsg none_answers three_upstreams (30 * Second) (30 * Second)
                query_A_again cached_60)) !! 1%positive =
     Some (set_Id (Id query_A_again) reply_60) /\
   exists key item, getKey query_A_again = Ok key /\
     cache cached_60 !! key = Some item /\
     30 * Second <= timeOut item /\ resp item = 1%positive).
Proof.
  apply (request_heap_frame none_answers three_upstreams (30 * Second) (30 * Second)
           query_A_again cached_60 1%positive reply_60).
  vm_compute. reflexivity.
Defined.

(** ** An invariant of the state *)

Lemma cache_wf_miss (now : Time) (req : Msg) (σ σ1 : State) (e : error)
    (ev : list Event) :
  findResponse now req σ = (Err e, σ1, ev) -> cache_wf σ -> cache_wf σ1.
Proof.
  intros Hf Hwf.
  destruct (findResponse_miss _ _ _ _ _ _ Hf)
    as (_ & _ & [-> | (key & item & _ & _ & _ & ->)]); [exact Hwf|].
  intros k it Hk. simpl in Hk.
  apply lookup_delete_Some in Hk as [_ Hk]. exact (Hwf k it Hk).
Qed.

Lemma cache_wf_alloc (m : Msg) (σ : State) :
  cache_wf σ -> cache_wf (state_upd_heap <[fresh (dom (heap σ)) := m]> σ).
Proof.
  intros Hwf k it Hk. simpl in *.
  destruct (Hwf k it Hk) as (m' & Hm' & Hans). exists m'. split; [|exact Hans].
  rewrite lookup_insert_ne; [exact Hm'|].
  intros Heq. pose proof (fresh_unallocated (heap σ)) as Hfresh.
  rewrite Heq, Hm' in Hfresh. discriminate.
Qed.

Lemma cache_wf_store (now : Time) (req : Msg) (r : loc) (σ : State) :
  cache_wf σ -> cache_wf (fst (cacheResponse now req r σ)).
Proof.
  intros Hwf.
  destruct (cacheResponse_cases now req r σ)
    as [-> | (key & item & m & _ & Hm & Hans & Hresp & ->)]; [exact Hwf|].
  intros k it Hk. simpl in *.
  apply lookup_insert_Some in Hk as [[_ <-] | [_ Hk]].
  - exists m. rewrite Hresp. auto.
  - exact (Hwf k it Hk).
Qed.

Lemma cache_wf_rewrite_id (id : Z) (l : loc) (σ : State) :
  cache_wf σ -> cache_wf (state_upd_heap (alter (set_Id id) l) σ).
Proof.
  intros Hwf k it Hk. simpl in *.
  destruct (Hwf k it Hk) as (m & Hm & Hans).
  rewrite lookup_alter. case_decide as Heq.
  - subst l. rewrite Hm. simpl. eauto.
  - eauto.
Qed.

Section HandlerInvariant.

Variable client_Exchange : nat -> Client -> Msg -> string -> result Msg.

(** X12.  The handler keeps the map sound: if before a request every
    entry refers to a message that exists and has an answer record, so
    does every entry after it, whatever the upstreams answer.  (The map
    of a new server is empty and sound.) *)
Theorem request_keeps_cache_wf (cs : CacheServer) (tFind tStore : Time) (req : Msg)
    (σ : State) :
  cache_wf σ ->
  cache_wf (fst (processDNSMsg client_Exchange cs tFind tStore req σ)).
Proof.
  intros Hwf.
  destruct (processDNSMsg_cases client_Exchange cs tFind tStore req σ)
    as [(key & item & Hkey & Hi & Ht & ->) | (σ1 & e & Hf & [-> | (n & m & Hn & ->)])];
    cbn [fst snd].
  - now apply cache_wf_rewrite_id.
  - exact (cache_wf_miss _ _ _ _ _ _ Hf Hwf).
  - apply cache_wf_store, cache_wf_alloc. exact (cache_wf_miss _ _ _ _ _ _ Hf Hwf).
Qed.

End HandlerInvariant.

Lemma cache_wf_new (h : gmap loc Msg) : cache_wf {| heap := h; cache := NewDNSCache |}.
Proof. intros k it Hk. simpl in Hk. unfold NewDNSCache in Hk. now rewrite lookup_empty in Hk. Qed.

Lemma request_keeps_cache_wf_witness :
  cache_wf (fst (processDNSMsg third_answers three_upstreams (5 * Second) (6 * Second)
                   query_A empty_state)).
Proof.
  apply (request_keeps_cache_wf third_answers three_upstreams (5 * Second) (6 * Second)
           query_A empty_state).
  intros k it Hk. vm_compute in Hk. discriminate.
Defined.

(** ** Requests in sequence *)

(** X13.  A reply without answer records is passed on and not kept: when
    the lookup finds nothing and the first upstream that answers sends a
    reply with an empty answer section, the handler writes that reply and
    the map stays as the lookup left it. *)
Theorem reply_without_answer_not_cached
    (client_Exchange : nat -> Client -> Msg -> string -> result Msg)
    (cs : CacheServer) (tFind tStore : Time) (req : Msg)
    (σ σ1 : State) (e : error) (ev1 : list Event)
    (pre : list DNSServer) (s : DNSServer) (post : list DNSServer) (m : Msg) :
  findResponse tFind req σ = (Err e, σ1, ev1) ->
  servers cs = (pre ++ s :: post)%list ->
  (forall j u, pre !! j = Some u ->
     exists e', Exchange client_Exchange j u req = Err e') ->
  Exchange client_Exchange (length pre) s req = Ok m ->
  Answer m = [] ->
  cache (fst (processDNSMsg client_Exchange cs tFind tStore req σ)) = cache σ1 /\
  List.filter is_write (snd (processDNSMsg client_Exchange cs tFind tStore req σ)) =
    [EvWriteMsg (fresh (dom (heap σ1))) m].
Proof.
  intros Hmiss Hservers Hfail Hok Hans.
  unfold processDNSMsg. rewrite Hmiss, Hservers.
  rewrite (forward_first_success client_Exchange tStore req 0 pre s post m σ1 Hfail Hok).
  rewrite (cacheResponse_empty tStore req (fresh (dom (heap σ1)))
             (state_upd_heap <[fresh (dom (heap σ1)) := m]> σ1) m)
    by first [exact Hans | simpl; apply lookup_insert_eq].
  cbn [fst snd]. split; [reflexivity|].
  destruct (findResponse_miss _ _ _ _ _ _ Hmiss) as (-> & _ & _).
  rewrite filter_write_log_cons, app_nil_l.
  rewrite !List.filter_app, exchanges_no_write. reflexivity.
Qed.

Lemma reply_without_answer_not_cached_witness :
  cache (fst (processDNSMsg first_answers_nxdomain three_upstreams (5 * Second)
                (6 * Second) query_A empty_state)) = cache empty_state /\
  List.filter is_write
    (snd (processDNSMsg first_answers_nxdomain three_upstreams (5 * Second)
            (6 * Second) query_A empty_state)) =
    [EvWriteMsg (fresh (dom (heap empty_state))) reply_nxdomain].
Proof.
  apply (reply_without_answer_not_cached first_answers_nxdomain three_upstreams
           (5 * Second) (6 * Second) query_A empty_state empty_state ErrNoResponse []
           [] U1 [U2; U3] reply_nxdomain).
  - vm_compute. reflexivity.
  - vm_compute. reflexivity.
  - intros j u Hj. destruct j; discriminate.
  - reflexivity.
  - reflexivity.
Defined.

(** X14.  A reply that an upstream gave is served from the cache
    afterwards.  After a request that found nothing and got the reply [m]
    with a first answer record of TTL [S] from an upstream, stored at
    [tStore], a request with the same key that looks up no later than
    [tStore + S] contacts no upstream, whatever upstreams it has: its
    trace is the two diagnostics of a hit and one reply, whose identifier
    is that of the new query and whose other fields are those of [m]. *)
Theorem miss_then_hit
    (exchange1 exchange2 : nat -> Client -> Msg -> string -> result Msg)
    (cs cs2 : CacheServer) (tFind tStore tFind2 tStore2 : Time) (req req2 : Msg)
    (σ σ1 : State) (e : error) (ev1 : list Event)
    (pre : list DNSServer) (s : DNSServer) (post : list DNSServer)
    (m : Msg) (rr : RR) (rest : list RR) (key : string) :
  findResponse tFind req σ = (Err e, σ1, ev1) ->
  servers cs = (pre ++ s :: post)%list ->
  (forall j u, pre !! j = Some u -> exists e', Exchange exchange1 j u req = Err e') ->
  Exchange exchange1 (length pre) s req = Ok m ->
  Answer m = rr :: rest -> uint32 (Ttl rr) ->
  getKey req = Ok key -> getKey req2 = Ok key ->
  tFind2 <= tStore + Ttl rr * Second ->
  exists w,
    snd (processDNSMsg exchange2 cs2 tFind2 tStore2 req2
           (fst (processDNSMsg exchange1 cs tFind tStore req σ))) =
      [EvLog DebugLevel "process request";
       EvLog DebugLevel "find response from cache";
       EvWriteMsg (fresh (dom (heap σ1))) w] /\
    w = set_Id (Id req2) m /\
    Id w = Id req2 /\ Rcode w = Rcode m /\ Questions w = Questions m /\
    Answer w = Answer m /\ Ns w = Ns m /\ Extra w = Extra m.
Proof.
  intros Hmiss Hservers Hfail Hok Hans Httl Hkey Hkey2 Htime.
  exists (set_Id (Id req2) m).
  split; [|repeat split; reflexivity].
  set (l := fresh (dom (heap σ1))).
  set (item := {| timeOut := tStore + ttl_duration (Ttl rr); resp := l |}).
  assert (Hfirst : fst (processDNSMsg exchange1 cs tFind tStore req σ) =
                   state_upd_cache <[key := item]> (state_upd_heap <[l := m]> σ1)).
  { unfold processDNSMsg. rewrite Hmiss, Hservers.
    rewrite (forward_first_success exchange1 tStore req 0 pre s post m σ1 Hfail Hok).
    fold l.
    rewrite (cacheResponse_store tStore req l (state_upd_heap <[l := m]> σ1)
               m rr rest key)
      by first [exact Hans | exact Hkey | simpl; apply lookup_insert_eq].
    reflexivity. }
  rewrite Hfirst. unfold processDNSMsg.
  rewrite (findResponse_hit tFind2 req2 _ key item Hkey2).
  - subst item. cbn [resp fst snd state_upd_heap state_upd_cache heap cache].
    rewrite lookup_total_alter, decide_True by reflexivity.
    rewrite lookup_insert_eq. reflexivity.
  - simpl. apply lookup_insert_eq.
  - simpl. rewrite (ttl_duration_uint32 _ Httl). exact Htime.
Qed.

Lemma miss_then_hit_witness :
  Id reply_60 = 48879 /\ Id query_A_again = 22136 /\
  snd (processDNSMsg none_answers three_upstreams (30 * Second) (31 * Second)
         query_A_again
         (fst (processDNSMsg third_answers three_upstreams (5 * Second) (6 * Second)
                 query_A empty_state))) =
    [EvLog DebugLevel "process request";
     EvLog DebugLevel "find response from cache";
     EvWriteMsg (fresh (dom (heap empty_state)))
       (mkMsg 22136 0 [mkQuestion "example.com." TypeA 1]
              [mkRR "example.com." TypeA 1 60 "93.184.216.34"] [] [])].
Proof.
  destruct (miss_then_hit third_answers none_answers three_upstreams three_upstreams
           (5 * Second) (6 * Second) (30 * Second) (31 * Second) query_A query_A_again
           empty_state empty_state ErrNoResponse [] [U1; U2] U3 [] reply_60
           (mkRR "example.com." TypeA 1 60 "93.184.216.34") [] "example.com.-1")
    as (w & Htrace & _ & HId & HRcode & HQ & HA & HNs & HEx).
  - vm_compute. reflexivity.
  - vm_compute. reflexivity.
  - intros j u. destruct j as [|[|j]]; simpl; intros [= <-];
      exists (ErrLibrary "i/o timeout"); reflexivity.
  - reflexivity.
  - reflexivity.
  - unfold uint32. simpl. lia.
  - vm_compute. reflexivity.
  - vm_compute. reflexivity.
  - unfold Second. simpl. lia.
  - split; [reflexivity|]. split; [reflexivity|]. rewrite Htrace.
    destruct w as [id rc qs an ns ex]. simpl in *. subst. reflexivity.
Defined.

(** * Further properties of the start-up *)

Section StartShape.

Variable ListenAndServe : dns_Server -> ListenOutcome.

(** One iteration of the loop of [start], by what [ListenAndServe] does. *)
Lemma start_loop_cons (self : HandlerRef) (a : string) (rest : list string)
    (p : Process) :
  start_loop ListenAndServe self (a :: rest) p =
  match ListenAndServe (listener_of a) with
  | Serves =>
      ({| DefaultServeMux := <["." := self]> (DefaultServeMux p);
          serving := serving p ++ [listener_of a] |},
       StartServing (listener_of a), [start_log a])
  | Returns (Some e) => (HandleFunc "." self p, StartListenError e, [start_log a])
  | Returns None =>
      (fst (fst (start_loop ListenAndServe self rest (HandleFunc "." self p))),
       snd (fst (start_loop ListenAndServe self rest (HandleFunc "." self p))),
       start_log a :: snd (start_loop ListenAndServe self rest (HandleFunc "." self p)))
  end.
Proof.
  simpl. unfold listener_of, start_log.
  destruct (parseListenAddr_cases a) as (proto & ad & -> & [-> | ->]); simpl;
    unfold serve;
    (destruct (ListenAndServe _) as [|[e|]]; simpl; try reflexivity;
     destruct (start_loop ListenAndServe self rest _) as [[p3 o] ev']; reflexivity).
Qed.

(** X15.  [start] stays in the first listener that serves: when
    [ListenAndServe] for the first listen address serves or fails, [start]
    ends there, and the listen addresses after it play no part: no server
    is made for them. *)
Theorem start_stops_at_first_listener (self : HandlerRef) (a : string)
    (rest : list string) (ups : list DNSServer) (p : Process) :
  ListenAndServe (listener_of a) <> Returns None ->
  start ListenAndServe self {| listenAddrs := a :: rest; servers := ups |} p =
  start ListenAndServe self {| listenAddrs := [a]; servers := ups |} p.
Proof.
  intros Hnot. unfold start. simpl listenAddrs. rewrite !start_loop_cons.
  destruct (ListenAndServe (listener_of a)) as [|[e|]]; try reflexivity.
  congruence.
Qed.

(** X16.  [start] returns nil exactly when [ListenAndServe] returned nil
    for every listen address, in particular when there is none; no
    listener of this server is serving then. *)
Theorem start_nil_iff (self : HandlerRef) (cs : CacheServer) (p : Process) :
  (snd (fst (start ListenAndServe self cs p)) = StartNil <->
   Forall (fun a => ListenAndServe (listener_of a) = Returns None) (listenAddrs cs)) /\
  (snd (fst (start ListenAndServe self cs p)) = StartNil ->
   serving (fst (fst (start ListenAndServe self cs p))) = serving p).
Proof.
  unfold start. generalize (listenAddrs cs) as addrs. intros addrs. revert p.
  induction addrs as [|a rest IH]; intros p.
  - simpl. split; [split; auto|auto].
  - rewrite start_loop_cons.
    destruct (ListenAndServe (listener_of a)) as [|[e|]] eqn:HLS; simpl.
    + split; [split; [discriminate|]|discriminate].
      intros H. apply Forall_cons in H as [H _]. congruence.
    + split; [split; [discriminate|]|discriminate].
      intros H. apply Forall_cons in H as [H _]. congruence.
    + destruct (IH (HandleFunc "." self p)) as [[IH1 IH2] IH3]. split.
      * split.
        -- intros H. apply Forall_cons. split; [exact HLS | now apply IH1].
        -- intros H. apply Forall_cons in H as [_ H]. now apply IH2.
      * intros H. now rewrite (IH3 H).
Qed.

Lemma start_loop_serving_shape (self : HandlerRef) (addrs : list string)
    (p : Process) :
  match snd (fst (start_loop ListenAndServe self addrs p)) with
  | StartServing srv =>
      serving (fst (fst (start_loop ListenAndServe self addrs p))) =
        (serving p ++ [srv])%list /\
      ListenAndServe srv = Serves /\
      exists a, a ∈ addrs /\ srv = listener_of a
  | _ => serving (fst (fst (start_loop ListenAndServe self addrs p))) = serving p
  end.
Proof.
  revert p. induction addrs as [|a rest IH]; intros p; [reflexivity|].
  rewrite start_loop_cons.
  destruct (ListenAndServe (listener_of a)) as [|[e|]] eqn:HLS; simpl.
  - split; [reflexivity|]. split; [exact HLS|]. exists a. split; [left | reflexivity].
  - reflexivity.
  - specialize (IH (HandleFunc "." self p)).
    destruct (snd (fst (start_loop ListenAndServe self rest (HandleFunc "." self p))));
      try exact IH.
    destruct IH as (Hs & HL & a' & Ha' & Hsrv).
    split; [exact Hs|]. split; [exact HL|]. exists a'. split; [now right | exact Hsrv].
Qed.

(** X17.  One call of [start] leaves at most one more server serving: if
    it ends serving, that server, made for one of its listen addresses
    and without a handler of its own, is the one added; in every other
    case the servers serving are those from before. *)
Theorem start_adds_at_most_one_listener (self : HandlerRef) (cs : CacheServer)
    (p : Process) :
  match snd (fst (start ListenAndServe self cs p)) with
  | StartServing srv =>
      serving (fst (fst (start ListenAndServe self cs p))) = (serving p ++ [srv])%list /\
      ListenAndServe srv = Serves /\ Handler srv = None /\
      exists a, a ∈ listenAddrs cs /\ srv = listener_of a
  | _ => serving (fst (fst (start ListenAndServe self cs p))) = serving p
  end.
Proof.
  unfold start. pose proof (start_loop_serving_shape self (listenAddrs cs) p) as H.
  destruct (snd (fst (start_loop ListenAndServe self (listenAddrs cs) p))); try exact H.
  destruct H as (Hs & HL & a & Ha & ->). repeat split; eauto.
Qed.

(** What the loop over the caches leaves serving. *)
Lemma main_loop_serving (next : HandlerRef) (caches : list CacheConfig) (p : Process) :
  match snd (fst (startDNSCacheServer_loop ListenAndServe next caches p)) with
  | StartServing srv =>
      serving (fst (fst (startDNSCacheServer_loop ListenAndServe next caches p))) =
        (serving p ++ [srv])%list
  | _ => serving (fst (fst (startDNSCacheServer_loop ListenAndServe next caches p))) =
           serving p
  end.
Proof.
  revert next p. induction caches as [|c rest IH]; intros next p; [reflexivity|].
  simpl.
  pose proof (start_loop_serving_shape next (ListenAddrs c) p) as Hstart.
  unfold start. simpl listenAddrs.
  destruct (start_loop ListenAndServe next (ListenAddrs c) p) as [[p1 out] ev] eqn:Hs.
  simpl in Hstart.
  destruct out; simpl; try exact Hstart; [|exact (proj1 Hstart)].
  specialize (IH (Pos.succ next) p1).
  destruct (startDNSCacheServer_loop ListenAndServe (Pos.succ next) rest p1)
    as [[p2 o] ev']. simpl in *.
  destruct o; rewrite IH, Hstart; reflexivity.
Qed.

End StartShape.

Section MainProperties.

Variable ListenAndServe : dns_Server -> ListenOutcome.

(** X18.  The program as a whole leaves at most one server serving:
    [startDNSCacheServer] ends serving on one listener, the only one it
    has added, or it returns (the error of the load, the error of a
    listener, or nil) and no server of it is serving. *)
Theorem program_serves_at_most_one_listener (loaded : result DNSCacheConfig)
    (p : Process) :
  match snd (fst (startDNSCacheServer ListenAndServe loaded p)) with
  | MainStart (StartServing srv) =>
      serving (fst (fst (startDNSCacheServer ListenAndServe loaded p))) =
        (serving p ++ [srv])%list
  | _ => serving (fst (fst (startDNSCacheServer ListenAndServe loaded p))) = serving p
  end.
Proof.
  unfold startDNSCacheServer. destruct loaded as [config|e]; [|reflexivity].
  pose proof (main_loop_serving ListenAndServe 1%positive (Caches config) p) as H.
  destruct (startDNSCacheServer_loop ListenAndServe 1%positive (Caches config) p)
    as [[p' o] ev].
  simpl in *. destruct o; exact H.
Qed.

(** X19.  The caches are started one after the other, and a cache whose
    [start] does not return nil ends the loop: when the [start] of the
    first cache serves or returns an error, the caches after it play no
    part, no cache server is made for them. *)
Theorem caches_after_first_not_started (c : CacheConfig) (rest : list CacheConfig)
    (p : Process) :
  snd (fst (start ListenAndServe 1%positive
              (fst (NewCacheServer (ListenAddrs c) (DnsServers c))) p)) <> StartNil ->
  startDNSCacheServer ListenAndServe (Ok {| Caches := c :: rest |}) p =
  startDNSCacheServer ListenAndServe (Ok {| Caches := [c] |}) p.
Proof.
  intros Hnot. unfold startDNSCacheServer. simpl.
  destruct (start ListenAndServe 1%positive _ p) as [[p1 out] ev]. simpl in Hnot.
  destruct out; try reflexivity. congruence.
Qed.

End MainProperties.

Lemma start_stops_at_first_listener_witness :
  start always_serves 1%positive
    {| listenAddrs := ["udp:127.0.0.1:5301"; "tcp:127.0.0.1:5301"]; servers := [U3] |}
    no_process =
  start always_serves 1%positive
    {| listenAddrs := ["udp:127.0.0.1:5301"]; servers := [U3] |} no_process.
Proof.
  apply (start_stops_at_first_listener always_serves 1%positive "udp:127.0.0.1:5301"
           ["tcp:127.0.0.1:5301"] [U3] no_process).
  discriminate.
Defined.

Lemma caches_after_first_not_started_witness :
  startDNSCacheServer always_serves (Ok two_caches) no_process =
  startDNSCacheServer always_serves
    (Ok {| Caches := [ {| ListenAddrs := ["udp:127.0.0.1:5301"; "tcp:127.0.0.1:5301"];
                          DnsServers := ["8.8.8.8:53"] |} ] |}) no_process.
Proof.
  apply (caches_after_first_not_started always_serves
           {| ListenAddrs := ["udp:127.0.0.1:5301"; "tcp:127.0.0.1:5301"];
              DnsServers := ["8.8.8.8:53"] |}
           [ {| ListenAddrs := ["udp:127.0.0.1:5302"]; DnsServers := ["1.1.1.1:53"] |} ]
           no_process).
  vm_compute. discriminate.
Defined.

Example program_two_caches_one_listener :
  serving (fst (fst (startDNSCacheServer always_serves (Ok two_caches) no_process))) =
    [listener_one].
Proof. vm_compute. reflexivity. Qed.

Example program_port_taken :
  snd (fst (startDNSCacheServer first_port_taken
              (Ok {| Caches := [ {| ListenAddrs := ["127.0.0.1:53"; "tcp:127.0.0.1:53"];
                                    DnsServers := ["8.8.8.8:53"] |} ] |}) no_process)) =
    MainStart (StartListenError (ErrLibrary "address already in use")).
Proof. vm_compute. reflexivity. Qed.

Example program_all_return_nil :
  startDNSCacheServer always_returns_nil (Ok two_caches) no_process =
    ({| DefaultServeMux := {[ "." := 2%positive ]}; serving := [] |},
     MainStart StartNil,
     [EvLog InfoLevel "start udp DNS server"; EvLog InfoLevel "start tcp DNS server";
      EvLog InfoLevel "start udp DNS server"]).
Proof. vm_compute. reflexivity. Qed.

Lemma lookup_frame_witness :
  cache (snd (fst (findResponse (61 * Second) query_A cached_60))) ⊆ cache cached_60 /\
  cache (snd (fst (findResponse (61 * Second) query_A cached_60))) !! "example.com.-28" =
    cache cached_60 !! "example.com.-28" /\
  snd (fst (findResponse (30 * Second) query_A cached_60)) = cached_60.
Proof.
  destruct (lookup_frame (61 * Second) query_A cached_60) as (_ & Hsub & Hother & _).
  destruct (lookup_frame (30 * Second) query_A cached_60) as (_ & _ & _ & Hhit).
  split; [exact Hsub|]. split.
  - apply Hother. vm_compute. discriminate.
  - apply (Hhit 1%positive). vm_compute. reflexivity.
Defined.

Lemma start_nil_iff_witness :
  snd (fst (start always_returns_nil 1%positive instance_one no_process)) = StartNil /\
  serving (fst (fst (start always_returns_nil 1%positive instance_one no_process))) =
    serving no_process.
Proof.
  destruct (start_nil_iff always_returns_nil 1%positive instance_one no_process)
    as [[_ Hall] Hserving].
  assert (Hnil : snd (fst (start always_returns_nil 1%positive instance_one no_process))
                 = StartNil).
  { apply Hall. repeat constructor. }
  split; [exact Hnil | exact (Hserving Hnil)].
Defined.

(** X22.  An expired entry is refreshed by the next answer: when the
    lookup finds the entry of the key expired and an upstream then
    answers with a reply that has an answer record, the map after the
    request is the map before it with the entry of the key replaced by the
    entry of the new reply, expiring at the instant of the store plus the
    new TTL; the old message stays as it was. *)
Theorem expired_entry_refreshed
    (client_Exchange : nat -> Client -> Msg -> string -> result Msg)
    (cs : CacheServer) (tFind tStore : Time) (req : Msg) (σ : State)
    (key : string) (old : DNSCacheItem) (m_old : Msg)
    (pre : list DNSServer) (s : DNSServer) (post : list DNSServer)
    (m : Msg) (rr : RR) (rest : list RR) :
  getKey req = Ok key -> cache σ !! key = Some old -> timeOut old < tFind ->
  heap σ !! resp old = Some m_old ->
  servers cs = (pre ++ s :: post)%list ->
  (forall j u, pre !! j = Some u ->
     exists e', Exchange client_Exchange j u req = Err e') ->
  Exchange client_Exchange (length pre) s req = Ok m ->
  Answer m = rr :: rest -> uint32 (Ttl rr) ->
  cache (fst (processDNSMsg client_Exchange cs tFind tStore req σ)) =
    <[key := {| timeOut := tStore + Ttl rr * Second; resp := fresh (dom (heap σ)) |}]>
      (cache σ) /\
  heap (fst (processDNSMsg client_Exchange cs tFind tStore req σ)) !! resp old =
    Some m_old /\
  resp old <> fresh (dom (heap σ)).
Proof.
  intros Hkey Hold Hexp Hm_old Hservers Hfail Hok Hans Httl.
  assert (Hne : resp old <> fresh (dom (heap σ))).
  { intros Heq. pose proof (fresh_unallocated (heap σ)) as Hfresh.
    rewrite <- Heq, Hm_old in Hfresh. discriminate. }
  unfold processDNSMsg.
  rewrite (findResponse_expired tFind req σ key old Hkey Hold Hexp), Hservers.
  rewrite (forward_first_success client_Exchange tStore req 0 pre s post m _ Hfail Hok).
  cbn [heap state_upd_cache].
  rewrite (cacheResponse_store tStore req (fresh (dom (heap σ))) _ m rr rest key)
    by first [exact Hans | exact Hkey | simpl; apply lookup_insert_eq].
  cbn [fst snd cache heap state_upd_cache state_upd_heap].
  rewrite (ttl_duration_uint32 _ Httl).
  split; [apply insert_delete_eq|]. split; [|exact Hne].
  rewrite lookup_insert_ne by congruence. exact Hm_old.
Qed.

Lemma expired_entry_refreshed_witness :
  cache (fst (processDNSMsg first_answers_300 three_upstreams (61 * Second)
                (62 * Second) query_A cached_60)) =
    <["example.com.-1" := {| timeOut := 62 * Second + 300 * Second;
                             resp := fresh (dom (heap cached_60)) |}]>
      (cache cached_60) /\
  heap (fst (processDNSMsg first_answers_300 three_upstreams (61 * Second)
               (62 * Second) query_A cached_60)) !! resp item_60 = Some reply_60 /\
  resp item_60 <> fresh (dom (heap cached_60)).
Proof.
  apply (expired_entry_refreshed first_answers_300 three_upstreams (61 * Second)
           (62 * Second) query_A cached_60 "example.com.-1" item_60 reply_60
           [] U1 [U2; U3] reply_300
           (mkRR "example.com." TypeA 1 300 "93.184.216.35") []).
  - vm_compute. reflexivity.
  - vm_compute. reflexivity.
  - unfold item_60, Second. simpl. lia.
  - vm_compute. reflexivity.
  - vm_compute. reflexivity.
  - intros j u Hj. destruct j; discriminate.
  - reflexivity.
  - reflexivity.
  - unfold uint32. simpl. lia.
Defined.
